(** * nfs-rest-gateway: the volume lifecycle manager

    A shallow embedding of [gateway.go] (handlers [createVolume], [getVolume],
    [deleteVolume], the export projector [exportfs] / [unexport] / [cmd],
    [Reload] and [Shutdown]).

    The program talks to four collaborators whose code is not part of the
    repository: the bolt record store, the filesystem, the [exportfs] binary
    and [encoding/json].  Their state is kept in an explicit [World]; which of
    their calls fail, and how, is read from an [Env] of outcome functions, so
    that every theorem holds whatever the collaborators answer. *)

From Stdlib Require Import String Ascii List Bool Arith Lia.
Import ListNotations.
Open Scope string_scope.

(* ================================================================== *)
(** ** Go values *)

(** A non-nil Go [error]: its message and whether [os.IsNotExist] holds of
    it.  The nil error is [None]. *)
Record error : Type := mkError { Error : string; IsNotExist : bool }.

(** [errors.Wrap] of github.com/pkg/errors: nil stays nil, otherwise the
    message is put in front of the cause.  A wrapped error is not recognised
    by [os.IsNotExist]. *)
Definition Wrap (err : option error) (message : string) : option error :=
  match err with
  | None => None
  | Some e => Some (mkError (message ++ ": " ++ Error e) false)
  end.

Record nfsExport : Type := mkExport
  { Path : string; Hosts : list string; Options : string }.

Record volume : Type := mkVolume { Name : string; Export : nfsExport }.

Record CreateRequest : Type := mkCreateRequest
  { req_Hosts : list string; req_Options : string }.

Record CreateResponse : Type := mkCreateResponse
  { cresp_Name : string; cresp_Path : string }.

Record GetResponse : Type := mkGetResponse
  { gresp_Name : string; gresp_Path : string }.

(** What a handler reads of an [*http.Request]. *)
Record Request : Type := mkRequest
  { ParseForm : option error;      (* r.ParseForm() *)
    query_name : string;           (* r.URL.Query().Get("name") *)
    vars_name : string;            (* mux.Vars(r)["name"] *)
    Body : string }.

(** What a handler leaves in the [http.ResponseWriter]. *)
Record Response : Type := mkResponse { status : nat; body : string }.

Definition StatusOK := 200.
Definition StatusBadRequest := 400.
Definition StatusNotFound := 404.
Definition StatusConflict := 409.
Definition StatusInternalServerError := 500.

(** [http.Error(w, msg, code)] *)
Definition http_Error (msg : string) (code : nat) : Response :=
  mkResponse code (msg ++ String (ascii_of_nat 10) "").

(** [w.Write(b)] on a fresh writer; a handler that writes nothing answers
    [written ""]. *)
Definition written (b : string) : Response := mkResponse StatusOK b.

(** A logrus entry: [WithError(err)], the [WithField] pairs, the message. *)
Record LogEntry : Type := mkLog
  { log_error : error; log_fields : list (string * string); log_msg : string }.

(* ================================================================== *)
(** ** path/filepath (Unix) *)

(** The elements of a path between separators; a path with [n] separators
    has [n+1] elements, some of them empty. *)
Fixpoint elements (path : string) : list string :=
  match path with
  | EmptyString => [""]
  | String c rest =>
      if Ascii.eqb c "/" then "" :: elements rest
      else match elements rest with
           | [] => [String c ""]
           | e :: es => String c e :: es
           end
  end.

(** One iteration of the loop of [Clean]; [out] is the output buffer as a
    stack of elements, last written first.  An empty element and [.] are
    skipped; [..] removes the last real element when there is one
    ([out.w > dotdot]), is dropped at the root, and is kept in a leading
    [../..] prefix otherwise. *)
Definition clean_step (rooted : bool) (out : list string) (e : string)
  : list string :=
  if (e =? "") || (e =? ".") then out
  else if e =? ".." then
    match out with
    | top :: below =>
        if top =? ".." then (if rooted then out else ".." :: out) else below
    | [] => if rooted then [] else [".."]
    end
  else e :: out.

Fixpoint join_sep (es : list string) : string :=
  match es with
  | [] => ""
  | [e] => e
  | e :: rest => e ++ "/" ++ join_sep rest
  end.

Definition is_rooted (path : string) : bool :=
  match path with
  | String c _ => Ascii.eqb c "/"
  | EmptyString => false
  end.

(** [filepath.Clean] *)
Definition filepath_Clean (path : string) : string :=
  let rooted := is_rooted path in
  let out := fold_left (clean_step rooted) (elements path) [] in
  if rooted then "/" ++ join_sep (rev out)
  else match out with
       | [] => "."
       | _ => join_sep (rev out)
       end.

(** [filepath.Join]: leading empty elements are ignored, the rest is joined
    with the separator and cleaned. *)
Fixpoint filepath_Join (elem : list string) : string :=
  match elem with
  | [] => ""
  | e :: rest =>
      if e =? "" then filepath_Join rest
      else filepath_Clean (join_sep elem)
  end.

(* ================================================================== *)
(** ** The record store: one bolt bucket *)

(** The [volumes] bucket: keys in byte order, as bolt keeps and iterates
    them. *)
Definition Bucket := list (string * string).

Fixpoint bucket_get (b : Bucket) (key : string) : option string :=
  match b with
  | [] => None
  | (k, v) :: rest => if k =? key then Some v else bucket_get rest key
  end.

Fixpoint bucket_put (b : Bucket) (key value : string) : Bucket :=
  match b with
  | [] => [(key, value)]
  | (k, v) :: rest =>
      match String.compare key k with
      | Lt => (key, value) :: b
      | Eq => (key, value) :: rest
      | Gt => (k, v) :: bucket_put rest key value
      end
  end.

Definition bucket_delete (b : Bucket) (key : string) : Bucket :=
  filter (fun kv => negb (fst kv =? key)) b.

(* ================================================================== *)
(** ** The filesystem: the directories that exist *)

Definition dir_exists (ds : list string) (path : string) : bool :=
  existsb (String.eqb path) ds.

(** [path] and the directories above it, for a cleaned [path]. *)
Fixpoint dir_chain (prefix path : string) : list string :=
  match path with
  | EmptyString => if prefix =? "" then [] else [prefix]
  | String c rest =>
      if Ascii.eqb c "/" then
        ((if prefix =? "" then ["/"] else [prefix])
           ++ dir_chain (prefix ++ "/")%string rest)%list
      else dir_chain (prefix ++ String c "") rest
  end.

Definition add_dir (ds : list string) (d : string) : list string :=
  if dir_exists ds d then ds else (ds ++ [d])%list.

(** The directories after [os.MkdirAll(path)] succeeded: the missing ones
    of the chain are made, top down. *)
Definition mkdir_all (ds : list string) (path : string) : list string :=
  fold_left add_dir (dir_chain "" path) ds.

(** [d] is [path] or lies below it; everything lies below the root. *)
Definition is_under (path d : string) : bool :=
  (path =? "/") || (d =? path) || String.prefix (path ++ "/") d.

(** The directories after [os.RemoveAll(path)] succeeded.  The empty path
    names nothing and nothing is removed; any other path names the
    directory its cleaned form names, which goes with all below it. *)
Definition remove_all (ds : list string) (path : string) : list string :=
  if path =? "" then ds
  else filter (fun d => negb (is_under (filepath_Clean path) d)) ds.

(* ================================================================== *)
(** ** State of the world and outcomes of the collaborators *)

Record World : Type := mkWorld
  { db : Bucket;                            (* the volumes bucket *)
    dirs : list string;                     (* existing directories *)
    execs : list (string * list string);    (* commands run so far *)
    logs : list LogEntry }.                 (* logrus output *)

Definition set_db (w : World) (b : Bucket) : World :=
  mkWorld b (dirs w) (execs w) (logs w).
Definition set_dirs (w : World) (ds : list string) : World :=
  mkWorld (db w) ds (execs w) (logs w).
Definition add_exec (w : World) (bin : string) (args : list string) : World :=
  mkWorld (db w) (dirs w) (execs w ++ [(bin, args)])%list (logs w).
Definition add_log (w : World) (l : LogEntry) : World :=
  mkWorld (db w) (dirs w) (execs w) (logs w ++ [l])%list.

(** Result of a Go call: a value, a non-nil error, or a panic. *)
Inductive result (A : Type) : Type :=
| Ok (a : A)
| Err (e : error)
| Panic.
Arguments Ok {A} a.
Arguments Err {A} e.
Arguments Panic {A}.

(** The answers of the collaborators.  Each is a function of what the
    collaborator can see: the commands run before, the directories, the
    bucket. *)
Record Env : Type := mkEnv
  { root : string;                 (* g.root *)
    exportfsPath : string;
    (* exec.Command(bin, args...).CombinedOutput() *)
    CombinedOutput :
      list (string * list string) -> string -> list string
      -> string * option error;
    MkdirAll_err : list string -> string -> option error;
    RemoveAll_err : list string -> string -> option error;
    Put_err : Bucket -> string -> string -> option error;
    Delete_err : Bucket -> string -> option error;
    (* tx.Commit(), from the bucket before and the bucket to be written *)
    Commit_err : Bucket -> Bucket -> option error;
    (* encoding/json *)
    Marshal_volume : volume -> result string;
    Unmarshal_volume : string -> result volume;            (* into a volume *)
    Unmarshal_volume_ptr : string -> result (option volume); (* into a *volume *)
    Decode_CreateRequest : string -> result CreateRequest;
    Marshal_CreateResponse : CreateResponse -> result string;
    Marshal_GetResponse : GetResponse -> result string }.

(** Computations on the world. *)
Definition M (A : Type) : Type := World -> World * result A.

Definition ret {A} (a : A) : M A := fun w => (w, Ok a).

Definition bind {A B} (m : M A) (k : A -> M B) : M B :=
  fun w =>
    match m w with
    | (w', Ok a) => k a w'
    | (w', Err e) => (w', Err e)
    | (w', Panic) => (w', Panic)
    end.

Notation "x <- m ;; k" := (bind m (fun x => k))
  (at level 61, m at next level, right associativity).
Notation "m ;;; k" := (bind m (fun _ => k))
  (at level 61, right associativity).

(** [return err] for a non-nil [err]. *)
Definition fail {A} (e : error) : M A := fun w => (w, Err e).

(** A call whose result is a Go [error]. *)
Definition of_error (err : option error) : M unit :=
  match err with
  | None => ret tt
  | Some e => fail e
  end.

(** A pure fallible call ([json.Marshal], [json.Unmarshal]). *)
Definition of_result {A} (r : result A) : M A := fun w => (w, r).

(** [err := m; ...]: the error is bound to a variable instead of returned. *)
Definition catch (m : M unit) : M (option error) :=
  fun w =>
    match m w with
    | (w', Ok _) => (w', Ok None)
    | (w', Err e) => (w', Ok (Some e))
    | (w', Panic) => (w', Panic)
    end.

(** [errors.Wrap(m, message)] *)
Definition wrapM {A} (m : M A) (message : string) : M A :=
  fun w =>
    match m w with
    | (w', Err e) => (w', Err (mkError (message ++ ": " ++ Error e) false))
    | r => r
    end.

Definition panic {A} : M A := fun w => (w, Panic).

Definition wrap_error (e : error) (message : string) : error :=
  mkError (message ++ ": " ++ Error e) false.

(* ================================================================== *)
(** ** gateway.go *)

Section Gateway.

Variable E : Env.

(** *** bolt *)

(** [b.Get(key)]: nil when the key is absent. *)
Definition Get (key : string) : M (option string) :=
  fun w => (w, Ok (bucket_get (db w) key)).

(** [b.Put(key, value)]; a failing [Put] changes nothing. *)
Definition Put (key value : string) : M unit :=
  fun w =>
    match Put_err E (db w) key value with
    | Some e => (w, Err e)
    | None => (set_db w (bucket_put (db w) key value), Ok tt)
    end.

(** [b.Delete(key)]; a failing [Delete] changes nothing. *)
Definition Delete (key : string) : M unit :=
  fun w =>
    match Delete_err E (db w) key with
    | Some e => (w, Err e)
    | None => (set_db w (bucket_delete (db w) key), Ok tt)
    end.

(** [db.Update(fn)]: when [fn] returns nil the transaction is committed,
    and [Update] returns the error of the commit, which leaves the bucket
    as it was when it fails; when [fn] returns an error or panics the
    writes are rolled back.  Only the bucket is transactional: directories,
    commands and log lines stay.  ([db.Begin] fails only on a database
    that is not open; [main] keeps it open while it serves.) *)
Definition db_Update {A} (fn : M A) : M A :=
  fun w =>
    match fn w with
    | (w', Ok a) =>
        match Commit_err E (db w) (db w') with
        | None => (w', Ok a)
        | Some e => (set_db w' (db w), Err e)
        end
    | (w', Err e) => (set_db w' (db w), Err e)
    | (w', Panic) => (set_db w' (db w), Panic)
    end.

(** [db.View(fn)]: a read-only transaction; the bucket is left as it was. *)
Definition db_View {A} (fn : M A) : M A :=
  fun w =>
    match fn w with
    | (w', r) => (set_db w' (db w), r)
    end.

(** [b.ForEach(fn)]: the pairs in key order, stopping at the first error. *)
Fixpoint ForEach (fn : string -> string -> M unit) (b : Bucket) : M unit :=
  match b with
  | [] => ret tt
  | (k, v) :: rest => fn k v ;;; ForEach fn rest
  end.

(** *** os *)

Definition MkdirAll (path : string) : M unit :=
  fun w =>
    match MkdirAll_err E (dirs w) path with
    | Some e => (w, Err e)
    | None => (set_dirs w (mkdir_all (dirs w) path), Ok tt)
    end.

Definition RemoveAll (path : string) : M unit :=
  fun w =>
    match RemoveAll_err E (dirs w) path with
    | Some e => (w, Err e)
    | None => (set_dirs w (remove_all (dirs w) path), Ok tt)
    end.

(** *** logrus *)

Definition log_Error (l : LogEntry) : M unit :=
  fun w => (add_log w l, Ok tt).

(** *** The export projector *)

(** [cmd(bin, args...)]: one run of the command; its combined output wraps
    the error. *)
Definition cmd (bin : string) (args : list string) : M unit :=
  fun w =>
    let (out, err) := CombinedOutput E (execs w) bin args in
    of_error (Wrap err out) (add_exec w bin args).

(** The argument list built by the loop of [exportfs]. *)
Definition exportfs_args (v : volume) : list string :=
  fold_left
    (fun args h =>
       ((if Options (Export v) =? "" then args
         else args ++ ["-o"; Options (Export v)])
          ++ [(h ++ ":" ++ Path (Export v))%string])%list)
    (Hosts (Export v)) [].

Definition exportfs (v : volume) : M unit :=
  wrapM (cmd (exportfsPath E) (exportfs_args v)) "error making nfs export".

(** The argument list built by the loop of [unexport]. *)
Definition unexport_args (v : volume) : list string :=
  fold_left
    (fun args h => (args ++ [(h ++ ":" ++ Path (Export v))%string])%list)
    (Hosts (Export v)) ["-u"].

Definition unexport (v : volume) : M unit :=
  wrapM (cmd (exportfsPath E) (unexport_args v)) "error unexporting nfs dir".

(** *** The handlers *)

Definition nfsPath (name : string) : string :=
  filepath_Join [root E; "nfs"; name].

(** The closure given to [db.Update] by [createVolume].  Its value is the
    captured variable [v] at a nil return: [None] when the name was found.
    (After a non-nil return the handler does not read [v].) *)
Definition createVolume_tx (name : string) (req : CreateRequest)
  : M (option volume) :=
  data <- Get name ;;
  match data with
  | Some _ => ret None
  | None =>
      let v := mkVolume name
                 (mkExport (nfsPath name) (req_Hosts req) (req_Options req)) in
      vb <- wrapM (of_result (Marshal_volume E v))
              "error marshaling volume data" ;;
      wrapM (Put name vb) "error writing volume to database" ;;;
      wrapM (MkdirAll (Path (Export v))) "error creating volume dir" ;;;
      exportfs v ;;;
      ret (Some v)
  end.

(** A handler yields the new world and the response; there is no response
    when the handler panicked. *)
Definition Handler := World -> World * option Response.

Definition createVolume (r : Request) : Handler :=
  fun w =>
    match ParseForm r with
    | Some err => (w, Some (http_Error (Error err) StatusBadRequest))
    | None =>
        let name := query_name r in
        if name =? "" then
          (w, Some (http_Error "must supply a name parameter" StatusBadRequest))
        else
          match Decode_CreateRequest E (Body r) with
          | Err err =>
              (w, Some (http_Error
                          (Error (wrap_error err "error decoding request"))
                          StatusBadRequest))
          | Panic => (w, None)
          | Ok req =>
              match db_Update (createVolume_tx name req) w with
              | (w', Err err) =>
                  (w', Some (http_Error (Error err) StatusInternalServerError))
              | (w', Panic) => (w', None)
              | (w', Ok None) =>
                  (w', Some (http_Error "already exists" StatusConflict))
              | (w', Ok (Some v)) =>
                  match Marshal_CreateResponse E
                          (mkCreateResponse (Name v) (Path (Export v))) with
                  | Err err =>
                      (w', Some (http_Error
                                   (Error (wrap_error err
                                             "error marshaling response"))
                                   StatusInternalServerError))
                  | Panic => (w', None)
                  | Ok b => (w', Some (written b))
                  end
              end
          end
    end.

(** The closure given to [db.View] by [getVolume]; its value is [vol]. *)
Definition getVolume_tx (name : string) : M (option volume) :=
  data <- Get name ;;
  match data with
  | None => ret None
  | Some d =>
      v <- wrapM (of_result (Unmarshal_volume E d))
             "error unmarshaling volume data from database" ;;
      ret (Some v)
  end.

Definition getVolume (r : Request) : Handler :=
  fun w =>
    match ParseForm r with
    | Some err => (w, Some (http_Error (Error err) StatusBadRequest))
    | None =>
        let name := vars_name r in
        if name =? "" then
          (w, Some (http_Error "name parameter must be set" StatusBadRequest))
        else
          match db_View (getVolume_tx name) w with
          | (w', Err err) =>
              (w', Some (http_Error
                           (Error (wrap_error err
                                     "error reading from database"))
                           StatusInternalServerError))
          | (w', Panic) => (w', None)
          | (w', Ok None) =>
              (w', Some (http_Error "volume not found" StatusNotFound))
          | (w', Ok (Some vol)) =>
              match Marshal_GetResponse E
                      (mkGetResponse (Name vol) (Path (Export vol))) with
              | Err err =>
                  (w', Some (http_Error
                               (Error (wrap_error err
                                         "error marshaling response"))
                               StatusInternalServerError))
              | Panic => (w', None)
              | Ok b => (w', Some (written b))
              end
          end
    end.

(** The closure given to [db.Update] by [deleteVolume].  The error of
    [b.Delete] is wrapped and the wrapped value dropped: nothing is
    returned there. *)
Definition deleteVolume_tx (name : string) : M unit :=
  data <- Get name ;;
  match data with
  | None => ret tt
  | Some d =>
      _err <- catch (Delete name) ;;
      v <- wrapM (of_result (Unmarshal_volume E d))
             "error unmarshaling volume from database" ;;
      unexport v ;;;
      err <- catch (RemoveAll (Path (Export v))) ;;
      match err with
      | Some e =>
          if negb (IsNotExist e)
          then fail (wrap_error e "error removing volume data")
          else ret tt
      | None => ret tt
      end
  end.

Definition deleteVolume (r : Request) : Handler :=
  fun w =>
    match ParseForm r with
    | Some err => (w, Some (http_Error (Error err) StatusBadRequest))
    | None =>
        let name := vars_name r in
        if name =? "" then
          (w, Some (http_Error "must provide name parameter" StatusBadRequest))
        else
          match db_Update (deleteVolume_tx name) w with
          | (w', Err err) =>
              (w', Some (http_Error (Error err) StatusInternalServerError))
          | (w', Panic) => (w', None)
          | (w', Ok _) => (w', Some (written ""))
          end
    end.

(** *** Shutdown and Reload *)

Definition Shutdown : M unit :=
  err <- catch (cmd (exportfsPath E) ["-ua"]) ;;
  match err with
  | Some e => log_Error (mkLog e [] "error during shutdown")
  | None => ret tt
  end.

(** The function given to [b.ForEach] by [Reload].  The record is decoded
    into a [*volume]; a nil pointer is dereferenced by [exportfs]. *)
Definition Reload_each (k v : string) : M unit :=
  vol <- wrapM (of_result (Unmarshal_volume_ptr E v))
           "error unmarshaling volume from database" ;;
  match vol with
  | None => panic
  | Some vol =>
      err <- catch (exportfs vol) ;;
      match err with
      | Some e =>
          log_Error (mkLog e [("volume", Name vol)]
                       "error exporting volume on reload")
      | None => ret tt
      end
  end.

Definition Reload : M unit :=
  db_View (fun w => ForEach Reload_each (db w) w).

(** *** main: [err = g.Reload(); exitOnError(err, "error on reload")] *)

Inductive Process : Type :=
| Running            (* goes on to listen and serve *)
| Exited (code : nat)
| Crashed.           (* unrecovered panic *)

Definition main_reload (w : World) : World * Process :=
  match Reload w with
  | (w', Ok _) => (w', Running)
  | (w', Err _) => (w', Exited 1)
  | (w', Panic) => (w', Crashed)
  end.

(** *** handleShutdown: at the first signal, [g.Shutdown(); os.Exit(0)] *)

Definition handleShutdown (w : World) : World * Process :=
  match Shutdown w with
  | (w', Panic) => (w', Crashed)
  | (w', _) => (w', Exited 0)
  end.

End Gateway.

(* ================================================================== *)
(** ** Vocabulary of the statements *)

(** A request that [createVolume] takes for [name]: the form parses and
    the query parameter [name] is [name], not empty.  (The route
    [POST /volume] has no variable: [vars_name] is whatever it is.) *)
Definition create_request (r : Request) (name : string) : Prop :=
  ParseForm r = None /\ query_name r = name /\ name <> "".

(** A request that [getVolume] and [deleteVolume] take for [name]: the
    form parses and the route variable [{name}] is [name], not empty. *)
Definition named_request (r : Request) (name : string) : Prop :=
  ParseForm r = None /\ vars_name r = name /\ name <> "".

(** The volume [createVolume] builds for a name and a decoded body. *)
Definition new_volume (E : Env) (name : string) (req : CreateRequest)
  : volume :=
  mkVolume name
    (mkExport (nfsPath E name) (req_Hosts req) (req_Options req)).

(** The argument list of apply in the words of the specification: per host,
    in order, [-o <options>] when the options are not empty, then
    [<host>:<path>]. *)
Definition apply_arguments (v : volume) : list string :=
  flat_map
    (fun h =>
       ((if Options (Export v) =? "" then []
         else ["-o"; Options (Export v)])
          ++ [(h ++ ":" ++ Path (Export v))%string])%list)
    (Hosts (Export v)).

(** The argument list of retract in the words of the specification: [-u],
    then one [<host>:<path>] per host. *)
Definition retract_arguments (v : volume) : list string :=
  "-u" :: map (fun h => (h ++ ":" ++ Path (Export v))%string)
            (Hosts (Export v)).

(** The world in the transaction of delete after [b.Delete]. *)
Definition after_Delete (E : Env) (name : string) (w : World) : World :=
  match Delete_err E (db w) name with
  | Some _ => w
  | None => set_db w (bucket_delete (db w) name)
  end.

Definition nonempty (s : string) : Prop := s <> "".

(** The status a handler answered, if it answered. *)
Definition status_of (out : World * option Response) : option nat :=
  option_map status (snd out).

Fixpoint has_separator (s : string) : bool :=
  match s with
  | EmptyString => false
  | String c rest => Ascii.eqb c "/" || has_separator rest
  end.

(** A path element that [Clean] keeps as it is. *)
Definition ordinary (e : string) : bool :=
  negb (e =? "") && negb (e =? ".") && negb (e =? "..").

(** A name all of whose elements are ordinary: it is not empty, has no
    leading, trailing or doubled separator and no [.] or [..] element. *)
Definition safe_name (name : string) : bool :=
  forallb ordinary (elements name).

(** The shape of the output buffer of [Clean]: ordinary elements without
    separator, above a run of [..] that only a path that is not rooted
    has. *)
Inductive stack_ok (rooted : bool) : list string -> Prop :=
| stack_nil : stack_ok rooted []
| stack_real (e : string) (out : list string) :
    ordinary e = true -> has_separator e = false ->
    stack_ok rooted out -> stack_ok rooted (e :: out)
| stack_dotdot (out : list string) :
    rooted = false -> Forall (eq "..") out ->
    stack_ok rooted (".." :: out).

(** The log lines [Reload] writes for the volumes [vols], the commands
    [hist] having run before: one line per volume whose apply fails. *)
Fixpoint reload_logs (E : Env) (hist : list (string * list string))
  (vols : list volume) : list LogEntry :=
  match vols with
  | [] => []
  | vol :: rest =>
      let args := exportfs_args vol in
      let later :=
        reload_logs E (hist ++ [(exportfsPath E, args)])%list rest in
      match CombinedOutput E hist (exportfsPath E) args with
      | (out, Some e) =>
          mkLog (wrap_error (wrap_error e out) "error making nfs export")
            [("volume", Name vol)] "error exporting volume on reload"
            :: later
      | (_, None) => later
      end
  end.

(** A deployment whose store, filesystem and export command never fail. *)
Definition reliable (E : Env) : Prop :=
  (forall b k v, Put_err E b k v = None)
  /\ (forall b k, Delete_err E b k = None)
  /\ (forall b b', Commit_err E b b' = None)
  /\ (forall ds p, MkdirAll_err E ds p = None)
  /\ (forall ds p, RemoveAll_err E ds p = None)
  /\ (forall hist bin args, snd (CombinedOutput E hist bin args) = None).

(** [l] continues [l0] by at most one element. *)
Definition at_most_one_more {A} (l0 l : list A) : Prop :=
  l = l0 \/ exists x, l = (l0 ++ [x])%list.

(* ================================================================== *)
(** ** A concrete deployment for the examples *)

Module Demo.

Definition dq : string := String (ascii_of_nat 34) "".

(** A string between double quotes; the JSON of a string that needs no
    escape. *)
Definition quoted (s : string) : string := dq ++ s ++ dq.

Definition field (k v : string) : string := quoted k ++ ":" ++ v.

Fixpoint comma_sep (l : list string) : string :=
  match l with
  | [] => ""
  | [x] => x
  | x :: rest => x ++ "," ++ comma_sep rest
  end.

Definition json_volume (v : volume) : string :=
  "{" ++ field "Name" (quoted (Name v)) ++ ","
      ++ field "Export"
           ("{" ++ field "Path" (quoted (Path (Export v))) ++ ","
                ++ field "Hosts"
                     ("[" ++ comma_sep (map quoted (Hosts (Export v))) ++ "]")
                ++ ","
                ++ field "Options" (quoted (Options (Export v))) ++ "}")
      ++ "}".

Definition json_response (name path : string) : string :=
  "{" ++ field "Name" (quoted name) ++ ","
      ++ field "Path" (quoted path) ++ "}".

Definition hosts := ["10.0.0.0/24"].

Definition data1 : volume :=
  mkVolume "data1" (mkExport "/data/nfs/data1" hosts "rw").
Definition data2 : volume :=
  mkVolume "data2" (mkExport "/data/nfs/data2" hosts "rw").

Definition syntax_error : error :=
  mkError "invalid character 'x' looking for beginning of value" false.

(** [encoding/json] on the records of the examples: the two volumes are
    read back from their JSON text, [null] leaves the target as it is, and
    anything else is taken for malformed. *)
Definition unmarshal_volume (d : string) : result volume :=
  if d =? json_volume data1 then Ok data1
  else if d =? json_volume data2 then Ok data2
  else if d =? "null" then Ok (mkVolume "" (mkExport "" [] ""))
  else Err syntax_error.

Definition unmarshal_volume_ptr (d : string) : result (option volume) :=
  if d =? json_volume data1 then Ok (Some data1)
  else if d =? json_volume data2 then Ok (Some data2)
  else if d =? "null" then Ok None
  else Err syntax_error.

(** Every request body of the examples is
    [{"Hosts":["10.0.0.0/24"],"Options":"rw"}]. *)
Definition request_body : string :=
  "{" ++ field "Hosts" ("[" ++ comma_sep (map quoted hosts) ++ "]") ++ ","
      ++ field "Options" (quoted "rw") ++ "}".

Definition decode_request (b : string) : result CreateRequest :=
  if b =? request_body then Ok (mkCreateRequest hosts "rw")
  else Err syntax_error.

Definition exit_status_1 : error := mkError "exit status 1" false.

(** A deployment under [data_root] where the store and the filesystem
    never fail, except that [b.Delete] fails when [delete_fails], and
    where the [exportfs] binary fails on the argument lists [failing]
    accepts. *)
Definition env (data_root : string) (failing : list string -> bool)
  (delete_fails : bool) : Env :=
  {| root := data_root;
     exportfsPath := "/usr/sbin/exportfs";
     CombinedOutput := fun _ _ args =>
       if failing args then ("exportfs: failed", Some exit_status_1)
       else ("", None);
     MkdirAll_err := fun _ _ => None;
     RemoveAll_err := fun _ _ => None;
     Put_err := fun _ _ _ => None;
     Delete_err := fun _ _ =>
       if delete_fails then Some (mkError "tx not writable" false)
       else None;
     Commit_err := fun _ _ => None;
     Marshal_volume := fun v => Ok (json_volume v);
     Unmarshal_volume := unmarshal_volume;
     Unmarshal_volume_ptr := unmarshal_volume_ptr;
     Decode_CreateRequest := decode_request;
     Marshal_CreateResponse := fun r =>
       Ok (json_response (cresp_Name r) (cresp_Path r));
     Marshal_GetResponse := fun r =>
       Ok (json_response (gresp_Name r) (gresp_Path r)) |}.

Definition never (_ : list string) : bool := false.
Definition always (_ : list string) : bool := true.

(** The world after [main] has made [/data/nfs], the store being empty. *)
Definition fresh : World :=
  mkWorld [] ["/"; "/data"; "/data/nfs"] [] [].

(** The same with [data1] persisted and its directory made. *)
Definition with_data1 : World :=
  mkWorld [("data1", json_volume data1)]
    ["/"; "/data"; "/data/nfs"; "/data/nfs/data1"] [] [].

Definition request (name : string) : Request :=
  mkRequest None name name request_body.

(** [POST /volume?name=<name>] with the body of the examples: the route
    has no variable. *)
Definition post (name : string) : Request :=
  mkRequest None name "" request_body.

(** [GET] or [DELETE /volume/<name>]: no query, no body. *)
Definition by_name (name : string) : Request :=
  mkRequest None "" name "".

(** The deployment [env data_root never false] with other outcomes for
    the store write, the directory creation, the directory removal and
    the commit. *)
Definition env_with (data_root : string)
  (put mkdir remove commit : option error) : Env :=
  {| root := data_root;
     exportfsPath := "/usr/sbin/exportfs";
     CombinedOutput := fun _ _ _ => ("", None);
     MkdirAll_err := fun _ _ => mkdir;
     RemoveAll_err := fun _ _ => remove;
     Put_err := fun _ _ _ => put;
     Delete_err := fun _ _ => None;
     Commit_err := fun _ _ => commit;
     Marshal_volume := fun v => Ok (json_volume v);
     Unmarshal_volume := unmarshal_volume;
     Unmarshal_volume_ptr := unmarshal_volume_ptr;
     Decode_CreateRequest := decode_request;
     Marshal_CreateResponse := fun r =>
       Ok (json_response (cresp_Name r) (cresp_Path r));
     Marshal_GetResponse := fun r =>
       Ok (json_response (gresp_Name r) (gresp_Path r)) |}.

Definition key_too_large : error := mkError "key too large" false.
Definition permission_denied : error := mkError "permission denied" false.
Definition busy : error := mkError "device or resource busy" false.
Definition no_such_file : error := mkError "no such file or directory" true.
Definition disk_full : error := mkError "no space left on device" false.


End Demo.

(* ================================================================== *)
(** ** Basic facts *)

Lemma eqb_name_false (name : string) : name <> "" -> (name =? "") = false.
Proof. intro H. now apply String.eqb_neq. Qed.

(** [filepath.Clean] and [filepath.Join] on cases of Go's own tests. *)
Example Clean_cases :
  map filepath_Clean
    [""; "abc"; "abc/def"; "/"; "abc/"; "abc//def//ghi"; "//abc"; "abc/./def";
     "abc/def/.."; "abc/def/../.."; "/abc/def/../.."; "abc/def/../../..";
     "/abc/def/../../.."; "abc/def/../../../ghi/jkl/../../../mno";
     "abc/./../def"; "abc//./../def"; "abc/../../././../def"; "/../abc"]
  = ["."; "abc"; "abc/def"; "/"; "abc"; "abc/def/ghi"; "/abc"; "abc/def";
     "abc"; "."; "/"; ".."; "/"; "../../mno"; "def"; "def"; "../../def";
     "/abc"].
Proof. reflexivity. Qed.

Example Join_cases :
  map filepath_Join
    [[]; [""]; ["a"]; ["a"; "b"]; ["a"; ""]; [""; "b"]; ["/"; "a"];
     ["/"; "a/b"]; ["/"; ""]; ["a/"; "b"]; ["a/"; ""]; [""; ""];
     ["/data"; "nfs"; "foo"]]
  = [""; ""; "a"; "a/b"; "a"; "b"; "/a"; "/a/b"; "/"; "a/b"; "a"; "";
     "/data/nfs/foo"].
Proof. reflexivity. Qed.

Lemma fold_apply_args (opts path : string) (hs : list string)
  (acc : list string) :
  fold_left
    (fun args h =>
       ((if opts =? "" then args else args ++ ["-o"; opts])
          ++ [(h ++ ":" ++ path)%string])%list) hs acc
  = (acc ++ flat_map
              (fun h => (if opts =? "" then [] else ["-o"; opts])
                          ++ [(h ++ ":" ++ path)%string]) hs)%list.
Proof.
  revert acc. induction hs as [| h hs IH]; intro acc; simpl.
  - now rewrite app_nil_r.
  - rewrite IH. destruct (opts =? ""); simpl.
    + now rewrite <- app_assoc.
    + now rewrite <- !app_assoc.
Qed.

Lemma fold_retract_args (path : string) (hs : list string)
  (acc : list string) :
  fold_left (fun args h => (args ++ [(h ++ ":" ++ path)%string])%list) hs acc
  = (acc ++ map (fun h => (h ++ ":" ++ path)%string) hs)%list.
Proof.
  revert acc. induction hs as [| h hs IH]; intro acc; simpl.
  - now rewrite app_nil_r.
  - rewrite IH. now rewrite <- app_assoc.
Qed.

Lemma exportfs_args_spec (v : volume) : exportfs_args v = apply_arguments v.
Proof. unfold exportfs_args, apply_arguments. now rewrite fold_apply_args. Qed.

Lemma unexport_args_spec (v : volume) :
  unexport_args v = retract_arguments v.
Proof. unfold unexport_args, retract_arguments. now rewrite fold_retract_args. Qed.

(** What one run of the command does to the world. *)
Lemma cmd_run (E : Env) (bin : string) (args : list string) (w : World) :
  cmd E bin args w
  = (add_exec w bin args,
     match CombinedOutput E (execs w) bin args with
     | (out, Some e) => Err (wrap_error e out)
     | (_, None) => Ok tt
     end).
Proof.
  unfold cmd. destruct (CombinedOutput E (execs w) bin args) as [out [e |]];
    reflexivity.
Qed.

Lemma exportfs_run (E : Env) (v : volume) (w : World) :
  exportfs E v w
  = (add_exec w (exportfsPath E) (exportfs_args v),
     match CombinedOutput E (execs w) (exportfsPath E) (exportfs_args v) with
     | (out, Some e) =>
         Err (wrap_error (wrap_error e out) "error making nfs export")
     | (_, None) => Ok tt
     end).
Proof.
  unfold exportfs, wrapM. rewrite cmd_run.
  destruct (CombinedOutput E (execs w) (exportfsPath E) (exportfs_args v))
    as [out [e |]]; reflexivity.
Qed.

Lemma unexport_run (E : Env) (v : volume) (w : World) :
  unexport E v w
  = (add_exec w (exportfsPath E) (unexport_args v),
     match CombinedOutput E (execs w) (exportfsPath E) (unexport_args v) with
     | (out, Some e) =>
         Err (wrap_error (wrap_error e out) "error unexporting nfs dir")
     | (_, None) => Ok tt
     end).
Proof.
  unfold unexport, wrapM. rewrite cmd_run.
  destruct (CombinedOutput E (execs w) (exportfsPath E) (unexport_args v))
    as [out [e |]]; reflexivity.
Qed.

(* ================================================================== *)
(** ** The export projector *)

(** C7.  For every volume, apply runs the external command exactly once,
    with the argument list made per host in order of [-o <options>] (when
    the options are not empty) and [<host>:<path>]; retract runs it exactly
    once with [-u] and one [<host>:<path>] per host.  Nothing else in the
    world changes, and the argument lists depend on the volume alone. *)
Theorem projector_runs_once_with_host_arguments
  (E : Env) (v : volume) (w : World) :
  exportfs_args v = apply_arguments v
  /\ unexport_args v = retract_arguments v
  /\ fst (exportfs E v w) = add_exec w (exportfsPath E) (apply_arguments v)
  /\ fst (unexport E v w) = add_exec w (exportfsPath E) (retract_arguments v)
  /\ execs (fst (exportfs E v w))
     = (execs w ++ [(exportfsPath E, apply_arguments v)])%list
  /\ execs (fst (unexport E v w))
     = (execs w ++ [(exportfsPath E, retract_arguments v)])%list.
Proof.
  rewrite exportfs_run, unexport_run, exportfs_args_spec, unexport_args_spec.
  repeat split.
Qed.

(* ================================================================== *)
(** ** Shutdown *)

(** C9.  Shutdown runs the external command exactly once, with [-ua]; the
    record store is neither written (it is the same afterwards) nor read
    (what Shutdown does is the same whatever the store holds); an error of
    the command is written to the log and Shutdown still returns
    normally. *)
Theorem shutdown_retracts_all_once (E : Env) (w : World) :
  snd (Shutdown E w) = Ok tt
  /\ db (fst (Shutdown E w)) = db w
  /\ dirs (fst (Shutdown E w)) = dirs w
  /\ execs (fst (Shutdown E w))
     = (execs w ++ [(exportfsPath E, ["-ua"])])%list
  /\ logs (fst (Shutdown E w))
     = (logs w ++
          match CombinedOutput E (execs w) (exportfsPath E) ["-ua"] with
          | (out, Some e) =>
              [mkLog (wrap_error e out) [] "error during shutdown"]
          | (_, None) => []
          end)%list
  /\ forall b : Bucket,
       Shutdown E (set_db w b) = (set_db (fst (Shutdown E w)) b, Ok tt).
Proof.
  assert (forall w0, Shutdown E w0
          = match CombinedOutput E (execs w0) (exportfsPath E) ["-ua"] with
            | (out, Some e) =>
                (add_log (add_exec w0 (exportfsPath E) ["-ua"])
                   (mkLog (wrap_error e out) [] "error during shutdown"),
                 Ok tt)
            | (_, None) => (add_exec w0 (exportfsPath E) ["-ua"], Ok tt)
            end) as run.
  { intro w0. unfold Shutdown, bind, catch. rewrite cmd_run.
    destruct (CombinedOutput E (execs w0) (exportfsPath E) ["-ua"])
      as [out [e |]]; reflexivity. }
  rewrite run.
  repeat split;
    try (intro b; rewrite run; simpl);
    destruct (CombinedOutput E (execs w) (exportfsPath E) ["-ua"])
      as [out [e |]]; simpl; try reflexivity;
    now rewrite app_nil_r.
Qed.

(* ================================================================== *)
(** ** Facts on paths and directories *)

Lemma append_assoc (a b c : string) : ((a ++ b) ++ c = a ++ (b ++ c))%string.
Proof. induction a as [| x a IH]; simpl; [reflexivity | now rewrite IH]. Qed.

Lemma append_nil_r (a : string) : (a ++ "")%string = a.
Proof. induction a as [| x a IH]; simpl; [reflexivity | now rewrite IH]. Qed.

Lemma append_nonempty_r (a b : string) : b <> "" -> (a ++ b)%string <> "".
Proof. destruct a; simpl; [auto | discriminate]. Qed.

Lemma dir_chain_has_path (path prefix : string) :
  (prefix ++ path)%string <> "" ->
  In (prefix ++ path)%string (dir_chain prefix path).
Proof.
  revert prefix. induction path as [| c rest IH]; intros prefix Hne; simpl.
  - rewrite append_nil_r in *.
    rewrite (eqb_name_false _ Hne). now left.
  - destruct (Ascii.eqb_spec c "/") as [-> | Hc].
    + apply in_or_app. right.
      replace (prefix ++ String "/" rest)%string
        with ((prefix ++ "/") ++ rest)%string
        by (now rewrite append_assoc).
      apply IH. rewrite append_assoc. now apply append_nonempty_r.
    + replace (prefix ++ String c rest)%string
        with ((prefix ++ String c "") ++ rest)%string
        by (now rewrite append_assoc).
      apply IH. rewrite append_assoc. now apply append_nonempty_r.
Qed.

Lemma add_dir_exists (ds : list string) (d : string) :
  dir_exists (add_dir ds d) d = true.
Proof.
  unfold add_dir. destruct (dir_exists ds d) eqn:Hd; [exact Hd |].
  unfold dir_exists. rewrite existsb_app. simpl.
  now rewrite String.eqb_refl, orb_true_r.
Qed.

Lemma add_dir_keeps (ds : list string) (d p : string) :
  dir_exists ds p = true -> dir_exists (add_dir ds d) p = true.
Proof.
  intro H. unfold add_dir. destruct (dir_exists ds d); [exact H |].
  unfold dir_exists in *. rewrite existsb_app. now rewrite H.
Qed.

Lemma fold_add_dir_keeps (chain ds : list string) (p : string) :
  dir_exists ds p = true -> dir_exists (fold_left add_dir chain ds) p = true.
Proof.
  revert ds. induction chain as [| d chain IH]; intros ds H; simpl;
    [exact H |].
  apply IH. now apply add_dir_keeps.
Qed.

Lemma fold_add_dir_exists (chain ds : list string) (p : string) :
  In p chain -> dir_exists (fold_left add_dir chain ds) p = true.
Proof.
  revert ds. induction chain as [| d chain IH]; intros ds Hin; simpl.
  - destruct Hin.
  - destruct Hin as [-> | Hin].
    + apply fold_add_dir_keeps, add_dir_exists.
    + now apply IH.
Qed.

(** After a [MkdirAll] that succeeded the directory is there. *)
Lemma mkdir_all_exists (ds : list string) (path : string) :
  path <> "" -> dir_exists (mkdir_all ds path) path = true.
Proof.
  intro Hne. unfold mkdir_all. apply fold_add_dir_exists.
  apply (dir_chain_has_path path ""). exact Hne.
Qed.

Lemma clean_step_nonempty (rooted : bool) (out : list string) (e : string) :
  Forall nonempty out -> Forall nonempty (clean_step rooted out e).
Proof.
  intro H. unfold clean_step.
  destruct (String.eqb_spec e "") as [-> | He]; simpl; [exact H |].
  destruct (e =? "."); [exact H |].
  destruct (e =? "..").
  - destruct out as [| top below].
    + destruct rooted; [constructor |].
      constructor; [discriminate | constructor].
    + destruct (top =? ".."); [destruct rooted |]; try exact H.
      * constructor; [discriminate | exact H].
      * now inversion H.
  - now constructor.
Qed.

Lemma fold_clean_nonempty (rooted : bool) (es out : list string) :
  Forall nonempty out -> Forall nonempty (fold_left (clean_step rooted) es out).
Proof.
  revert out. induction es as [| e es IH]; intros out H; simpl; [exact H |].
  apply IH. now apply clean_step_nonempty.
Qed.

Lemma join_sep_nonempty (es : list string) :
  es <> [] -> Forall nonempty es -> join_sep es <> "".
Proof.
  destruct es as [| e rest]; [congruence |]. intros _ H.
  inversion H as [| ? ? He _]; subst. unfold nonempty in He.
  destruct rest; simpl; [exact He |].
  destruct e; [congruence | discriminate].
Qed.

Lemma Clean_nonempty (path : string) : filepath_Clean path <> "".
Proof.
  unfold filepath_Clean.
  destruct (is_rooted path) eqn:Hr; [discriminate |].
  pose proof (fold_clean_nonempty false (elements path) [] (Forall_nil _))
    as Hall.
  destruct (fold_left (clean_step false) (elements path) []) as [| e out]
    eqn:Hout; [discriminate |].
  apply join_sep_nonempty.
  - simpl. intro Hnil. apply app_eq_nil in Hnil. destruct Hnil; discriminate.
  - apply Forall_rev. exact Hall.
Qed.

Lemma nfsPath_nonempty (E : Env) (name : string) : nfsPath E name <> "".
Proof.
  unfold nfsPath, filepath_Join.
  destruct (root E =? ""); [| apply Clean_nonempty].
  change ("nfs" =? "") with false. cbv iota. apply Clean_nonempty.
Qed.

(* ================================================================== *)
(** ** Elements of a path and what Clean does with them *)

Lemma elements_not_nil (path : string) : elements path <> [].
Proof.
  destruct path as [| c rest]; simpl; [discriminate |].
  destruct (Ascii.eqb c "/"); [discriminate |].
  destruct (elements rest); discriminate.
Qed.

Lemma elements_separator (a b : string) :
  elements (a ++ String "/" b) = (elements a ++ elements b)%list.
Proof.
  induction a as [| c a IH]; simpl; [reflexivity |].
  destruct (Ascii.eqb c "/").
  - now rewrite IH.
  - rewrite IH. pose proof (elements_not_nil a) as Hne.
    destruct (elements a) as [| e es]; [congruence | reflexivity].
Qed.

Lemma elements_plain (name : string) :
  has_separator name = false -> elements name = [name].
Proof.
  induction name as [| c rest IH]; simpl; intro H; [reflexivity |].
  apply orb_false_iff in H. destruct H as [Hc Hrest].
  rewrite Hc, (IH Hrest). reflexivity.
Qed.

Lemma elements_no_separator (path : string) :
  Forall (fun e => has_separator e = false) (elements path).
Proof.
  induction path as [| c rest IH]; simpl.
  - constructor; [reflexivity | constructor].
  - destruct (Ascii.eqb c "/") eqn:Hc.
    + constructor; [reflexivity | exact IH].
    + destruct (elements rest) as [| e es].
      * constructor; [simpl; now rewrite Hc | constructor].
      * inversion IH as [| ? ? He Hes]; subst.
        constructor; [simpl; now rewrite Hc, He | exact Hes].
Qed.

(** Joining the elements with the separator gives the path back. *)
Lemma join_sep_elements (path : string) : join_sep (elements path) = path.
Proof.
  induction path as [| c rest IH]; [reflexivity |].
  pose proof (elements_not_nil rest) as Hne. simpl.
  destruct (Ascii.eqb_spec c "/") as [-> | Hc].
  - destruct (elements rest) as [| e es]; [congruence |].
    change (join_sep ("" :: e :: es)) with ("/" ++ join_sep (e :: es))%string.
    now rewrite IH.
  - destruct (elements rest) as [| e es]; [congruence |].
    destruct es as [| e2 es].
    + simpl in *. now rewrite IH.
    + change (join_sep (String c e :: e2 :: es))
        with (String c (e ++ "/" ++ join_sep (e2 :: es)))%string.
      change (join_sep (e :: e2 :: es))
        with (e ++ "/" ++ join_sep (e2 :: es))%string in IH.
      now rewrite IH.
Qed.

Lemma join_sep_app (l1 l2 : list string) :
  l1 <> [] -> l2 <> [] ->
  join_sep (l1 ++ l2) = (join_sep l1 ++ "/" ++ join_sep l2)%string.
Proof.
  intros H1 H2. induction l1 as [| a rest IH]; [congruence |].
  destruct rest as [| b rest].
  - destruct l2 as [| c l2]; [congruence | reflexivity].
  - change (join_sep ((a :: b :: rest) ++ l2))
      with (a ++ "/" ++ join_sep ((b :: rest) ++ l2))%string.
    rewrite IH by discriminate.
    change (join_sep (a :: b :: rest))
      with (a ++ "/" ++ join_sep (b :: rest))%string.
    now rewrite !append_assoc.
Qed.

Lemma ordinary_spec (e : string) :
  ordinary e = true -> e <> "" /\ e <> "." /\ e <> "..".
Proof.
  unfold ordinary. intro H.
  repeat (apply andb_true_iff in H; destruct H as [H ?]).
  rewrite negb_true_iff in *.
  repeat split; now apply String.eqb_neq.
Qed.

Lemma clean_step_ordinary (rooted : bool) (out : list string) (e : string) :
  ordinary e = true -> clean_step rooted out e = e :: out.
Proof.
  intro H. apply ordinary_spec in H. destruct H as (H1 & H2 & H3).
  unfold clean_step.
  apply String.eqb_neq in H1, H2, H3. now rewrite H1, H2, H3.
Qed.

Lemma fold_clean_ordinary (rooted : bool) (es out : list string) :
  forallb ordinary es = true ->
  fold_left (clean_step rooted) es out = (rev es ++ out)%list.
Proof.
  revert out. induction es as [| e es IH]; intros out H; [reflexivity |].
  simpl in H. apply andb_true_iff in H. destruct H as [He Hes].
  cbn [fold_left rev]. rewrite (clean_step_ordinary _ _ _ He), (IH _ Hes).
  now rewrite <- app_assoc.
Qed.

Lemma is_rooted_append (q s : string) :
  q <> "" -> is_rooted (q ++ s) = is_rooted q.
Proof. destruct q; [congruence | reflexivity]. Qed.

(** Below a cleaned path that has an element, a name made of ordinary
    elements is appended as it is. *)
Lemma Clean_below (q name : string) :
  safe_name name = true ->
  q <> "" ->
  fold_left (clean_step (is_rooted q)) (elements q) [] <> [] ->
  filepath_Clean (q ++ "/" ++ name)
  = (filepath_Clean q ++ "/" ++ name)%string.
Proof.
  intros Hsafe Hq Hout. unfold filepath_Clean.
  rewrite (is_rooted_append q _ Hq).
  change ("/" ++ name)%string with (String "/" name).
  rewrite elements_separator, fold_left_app.
  rewrite (fold_clean_ordinary _ _ _ Hsafe).
  pose proof (elements_not_nil name) as Hels.
  destruct (fold_left (clean_step (is_rooted q)) (elements q) [])
    as [| top out]; [congruence |].
  assert (rev (top :: out) <> []) as Hrev.
  { simpl. intro Hnil. apply app_eq_nil in Hnil. destruct Hnil; discriminate. }
  assert (join_sep (rev (rev (elements name) ++ top :: out))
          = (join_sep (rev (top :: out)) ++ "/" ++ name)%string) as Hjoin.
  { rewrite rev_app_distr, rev_involutive.
    rewrite (join_sep_app _ _ Hrev Hels). now rewrite join_sep_elements. }
  rewrite Hjoin.
  destruct (is_rooted q).
  - now rewrite append_assoc.
  - destruct (rev (elements name) ++ top :: out)%list eqn:Hcat;
      [| reflexivity].
    apply app_eq_nil in Hcat. destruct Hcat; discriminate.
Qed.

Lemma fold_clean_nfs (rooted : bool) (q : string) :
  fold_left (clean_step rooted) (elements (q ++ String "/" "nfs")) []
  = "nfs" :: fold_left (clean_step rooted) (elements q) [].
Proof. rewrite elements_separator, fold_left_app. reflexivity. Qed.

(** For a name made of ordinary elements the path of the volume is the
    name appended to the [nfs] directory of the root, the one [main]
    makes. *)
Lemma nfsPath_safe (E : Env) (name : string) :
  safe_name name = true ->
  nfsPath E name = (filepath_Join [root E; "nfs"] ++ "/" ++ name)%string.
Proof.
  intro Hsafe. unfold nfsPath, filepath_Join.
  destruct (String.eqb_spec (root E) "") as [Hroot | Hroot].
  - change ("nfs" =? "") with false. cbv iota.
    change (join_sep ["nfs"; name]) with ("nfs" ++ "/" ++ name)%string.
    change (join_sep ["nfs"]) with "nfs".
    apply Clean_below; [exact Hsafe | discriminate | discriminate].
  - change (join_sep [root E; "nfs"; name])
      with (root E ++ "/" ++ join_sep ["nfs"; name])%string.
    change (join_sep ["nfs"; name]) with ("nfs" ++ "/" ++ name)%string.
    change (join_sep [root E; "nfs"]) with (root E ++ "/" ++ "nfs")%string.
    replace (root E ++ "/" ++ "nfs" ++ "/" ++ name)%string
      with ((root E ++ "/" ++ "nfs") ++ "/" ++ name)%string
      by (now rewrite !append_assoc).
    apply Clean_below; [exact Hsafe | |].
    + destruct (root E); [congruence | discriminate].
    + change ("/" ++ "nfs")%string with (String "/" "nfs").
      rewrite fold_clean_nfs. discriminate.
Qed.

Lemma prefix_append (a b : string) : String.prefix a (a ++ b) = true.
Proof.
  induction a as [| c a IH]; simpl; [now destruct b |].
  destruct (ascii_dec c c) as [_ | Hne]; [exact IH | congruence].
Qed.

(** What lies at [dir/<name>] lies below [dir]. *)
Lemma is_under_child (dir name : string) :
  is_under dir (dir ++ "/" ++ name) = true.
Proof.
  unfold is_under.
  replace (dir ++ "/" ++ name)%string with ((dir ++ "/") ++ name)%string
    by (now rewrite append_assoc).
  rewrite prefix_append. now rewrite !orb_true_r.
Qed.

Lemma is_under_self (path : string) : is_under path path = true.
Proof.
  unfold is_under. rewrite String.eqb_refl.
  now rewrite orb_true_r.
Qed.

(* ================================================================== *)
(** ** Clean of a cleaned path *)

Lemma clean_step_ok (rooted : bool) (out : list string) (e : string) :
  stack_ok rooted out -> has_separator e = false ->
  stack_ok rooted (clean_step rooted out e).
Proof.
  intros Hok Hsep. unfold clean_step.
  destruct (String.eqb_spec e "") as [-> | He]; [exact Hok |].
  destruct (String.eqb_spec e ".") as [-> | Hdot]; [exact Hok |]. cbn [orb].
  destruct (String.eqb_spec e "..") as [-> | Hdd].
  - destruct out as [| top below].
    + destruct rooted; [constructor |].
      now apply stack_dotdot.
    + destruct (String.eqb_spec top "..") as [-> | Htop].
      * destruct rooted eqn:Hr; [exact Hok |].
        apply stack_dotdot; [reflexivity |].
        inversion Hok as [| ? ? Hord _ _ | ? _ Hall]; subst.
        -- discriminate Hord.
        -- now constructor.
      * inversion Hok as [| ? ? _ _ Hbelow | ? _ _]; subst;
          [exact Hbelow | congruence].
  - apply stack_real; [| exact Hsep | exact Hok].
    unfold ordinary. apply String.eqb_neq in He, Hdot, Hdd.
    now rewrite He, Hdot, Hdd.
Qed.

Lemma fold_clean_ok (rooted : bool) (es out : list string) :
  stack_ok rooted out -> Forall (fun e => has_separator e = false) es ->
  stack_ok rooted (fold_left (clean_step rooted) es out).
Proof.
  revert out. induction es as [| e es IH]; intros out Hok Hes; [exact Hok |].
  inversion Hes; subst. cbn [fold_left]. apply IH; [| assumption].
  now apply clean_step_ok.
Qed.

(** Cleaning the elements of the buffer again rebuilds the buffer. *)
Lemma stack_replay (rooted : bool) (out : list string) :
  stack_ok rooted out -> fold_left (clean_step rooted) (rev out) [] = out.
Proof.
  induction 1 as [| e out Hord Hsep Hok IH | out Hr Hall].
  - reflexivity.
  - cbn [rev]. rewrite fold_left_app, IH. cbn [fold_left].
    now apply clean_step_ordinary.
  - subst rooted. cbn [rev]. rewrite fold_left_app.
    assert (fold_left (clean_step false) (rev out) [] = out) as Hrec.
    { induction Hall as [| x out Hx Hall IH]; [reflexivity |].
      subst x. cbn [rev]. rewrite fold_left_app, IH. cbn [fold_left].
      unfold clean_step. cbn [String.eqb Ascii.eqb Bool.eqb orb].
      destruct Hall as [| y ? Hy _]; [reflexivity |]. subst y. reflexivity. }
    rewrite Hrec. cbn [fold_left]. unfold clean_step.
    cbn [String.eqb Ascii.eqb Bool.eqb orb].
    destruct Hall as [| y ? Hy _]; [reflexivity |]. subst y. reflexivity.
Qed.

Lemma stack_elements (rooted : bool) (out : list string) :
  stack_ok rooted out ->
  Forall (fun e => e <> "" /\ has_separator e = false) out.
Proof.
  induction 1 as [| e out Hord Hsep Hok IH | out Hr Hall].
  - constructor.
  - constructor; [| exact IH]. split; [| exact Hsep].
    now apply ordinary_spec in Hord.
  - constructor; [split; [discriminate | reflexivity] |].
    induction Hall as [| x ? Hx _ IH]; constructor; [| exact IH].
    subst x. split; [discriminate | reflexivity].
Qed.

Lemma elements_join_sep (es : list string) :
  es <> [] -> Forall (fun e => has_separator e = false) es ->
  elements (join_sep es) = es.
Proof.
  induction es as [| e rest IH]; [congruence |]. intros _ Hall.
  inversion Hall as [| ? ? He Hrest]; subst.
  destruct rest as [| e2 rest]; [now apply elements_plain |].
  change (join_sep (e :: e2 :: rest))
    with (e ++ String "/" (join_sep (e2 :: rest)))%string.
  rewrite elements_separator, (elements_plain e He), IH;
    [reflexivity | discriminate | exact Hrest].
Qed.

Lemma is_rooted_join_sep (es : list string) :
  es <> [] -> Forall (fun e => e <> "" /\ has_separator e = false) es ->
  is_rooted (join_sep es) = false.
Proof.
  destruct es as [| e rest]; [congruence |]. intros _ Hall.
  inversion Hall as [| ? ? [Hne Hsep] _]; subst.
  destruct e as [| c e]; [congruence |].
  simpl in Hsep. apply orb_false_iff in Hsep. destruct Hsep as [Hc _].
  destruct rest; simpl; exact Hc.
Qed.

Lemma Clean_rooted (s : string) :
  filepath_Clean (String "/" s)
  = ("/" ++ join_sep (rev (fold_left (clean_step true) (elements s) [])))%string.
Proof. reflexivity. Qed.

Lemma rev_not_nil {A} (x : A) (l : list A) : rev (x :: l) <> [].
Proof.
  simpl. intro Hnil. apply app_eq_nil in Hnil. destruct Hnil; discriminate.
Qed.

(** The path written from a buffer of the shape [Clean] builds is a path
    that [Clean] leaves as it is. *)
Lemma Clean_of_stack (rooted : bool) (out : list string) :
  stack_ok rooted out ->
  filepath_Clean
    (if rooted then "/" ++ join_sep (rev out)
     else match out with
          | [] => "."
          | _ => join_sep (rev out)
          end)
  = (if rooted then "/" ++ join_sep (rev out)
     else match out with
          | [] => "."
          | _ => join_sep (rev out)
          end)%string.
Proof.
  intro Hok.
  pose proof (stack_replay _ _ Hok) as Hreplay.
  pose proof (stack_elements _ _ Hok) as Helems.
  assert (Forall (fun e => e <> "" /\ has_separator e = false) (rev out))
    as Hrev by (now apply Forall_rev).
  assert (Forall (fun e => has_separator e = false) (rev out)) as Hsep.
  { eapply Forall_impl; [| exact Hrev]. intros e [_ H]. exact H. }
  destruct rooted.
  - change ("/" ++ join_sep (rev out))%string
      with (String "/" (join_sep (rev out))).
    rewrite Clean_rooted.
    destruct out as [| top below]; [reflexivity |].
    rewrite (elements_join_sep _ (rev_not_nil top below) Hsep).
    now rewrite Hreplay.
  - destruct out as [| top below]; [reflexivity |].
    unfold filepath_Clean.
    rewrite (is_rooted_join_sep _ (rev_not_nil top below) Hrev).
    rewrite (elements_join_sep _ (rev_not_nil top below) Hsep).
    now rewrite Hreplay.
Qed.

(** [Clean] returns a path that [Clean] leaves as it is. *)
Lemma Clean_idempotent (path : string) :
  filepath_Clean (filepath_Clean path) = filepath_Clean path.
Proof.
  exact (Clean_of_stack (is_rooted path)
           (fold_left (clean_step (is_rooted path)) (elements path) [])
           (fold_clean_ok (is_rooted path) (elements path) []
              (stack_nil _) (elements_no_separator path))).
Qed.

Lemma nfsPath_clean (E : Env) (name : string) :
  filepath_Clean (nfsPath E name) = nfsPath E name.
Proof.
  unfold nfsPath, filepath_Join.
  destruct (root E =? ""); [| apply Clean_idempotent].
  change ("nfs" =? "") with false. cbv iota. apply Clean_idempotent.
Qed.

(* ================================================================== *)
(** ** Removal of a directory *)

(** After a [RemoveAll] that succeeded, nothing is left at the path or
    below it. *)
Lemma remove_all_gone (ds : list string) (path d : string) :
  path <> "" -> is_under (filepath_Clean path) d = true ->
  dir_exists (remove_all ds path) d = false.
Proof.
  intros Hne Hunder. unfold dir_exists, remove_all.
  rewrite (eqb_name_false _ Hne).
  destruct (existsb (String.eqb d)
              (filter (fun x => negb (is_under (filepath_Clean path) x)) ds))
    eqn:Hex; [| reflexivity].
  apply existsb_exists in Hex. destruct Hex as (x & Hin & Heq).
  apply String.eqb_eq in Heq. subst x.
  apply filter_In in Hin. destruct Hin as [_ Hkeep].
  rewrite Hunder in Hkeep. discriminate.
Qed.


(* ================================================================== *)
(** ** Lookups in the bucket *)

Lemma bucket_get_put (b : Bucket) (key value : string) :
  bucket_get (bucket_put b key value) key = Some value.
Proof.
  induction b as [| [k v] rest IH]; simpl.
  - now rewrite String.eqb_refl.
  - destruct (String.compare key k) eqn:Hc; simpl.
    + now rewrite String.eqb_refl.
    + now rewrite String.eqb_refl.
    + destruct (String.eqb_spec k key) as [-> | Hne]; [| exact IH].
      pose proof (String.compare_antisym key key) as Hsym.
      rewrite Hc in Hsym. discriminate.
Qed.


Lemma bucket_get_delete (b : Bucket) (key : string) :
  bucket_get (bucket_delete b key) key = None.
Proof.
  induction b as [| [k0 v0] rest IH]; simpl; [reflexivity |].
  destruct (String.eqb_spec k0 key) as [-> | Hne]; simpl; [exact IH |].
  destruct (String.eqb_spec k0 key); [congruence | exact IH].
Qed.


Lemma bucket_delete_absent (b : Bucket) (key : string) :
  bucket_get b key = None -> bucket_delete b key = b.
Proof.
  induction b as [| [k0 v0] rest IH]; simpl; [reflexivity |].
  destruct (String.eqb_spec k0 key) as [-> | Hne]; [discriminate |].
  intro H. simpl. now rewrite (IH H).
Qed.

Lemma bucket_delete_put (b : Bucket) (key value : string) :
  bucket_get b key = None -> bucket_delete (bucket_put b key value) key = b.
Proof.
  induction b as [| [k0 v0] rest IH]; simpl.
  - intros _. now rewrite String.eqb_refl.
  - destruct (String.eqb_spec k0 key) as [-> | Hne]; [discriminate |].
    intro H. destruct (String.compare key k0) eqn:Hc.
    + apply String.compare_eq_iff in Hc. congruence.
    + unfold bucket_delete. cbn [filter fst]. rewrite String.eqb_refl.
      cbn [negb].
      destruct (String.eqb_spec k0 key) as [| _]; [congruence |].
      cbn [negb]. f_equal. now apply bucket_delete_absent.
    + unfold bucket_delete. cbn [filter fst].
      destruct (String.eqb_spec k0 key) as [| _]; [congruence |].
      cbn [negb]. f_equal. now apply IH.
Qed.

(* ================================================================== *)
(** ** The transactions of the handlers *)

Ltac unfold_handlers :=
  unfold createVolume, getVolume, deleteVolume, db_Update, db_View,
    createVolume_tx, getVolume_tx, deleteVolume_tx, exportfs, unexport, cmd,
    bind, catch, wrapM, of_result, of_error, Get, Put, Delete, MkdirAll,
    RemoveAll, ret, fail, Wrap.

Ltac split_cases :=
  repeat (match goal with
          | |- context [match ?x with _ => _ end] =>
              lazymatch x with
              | context [match _ with _ => _ end] => fail
              | _ => destruct x eqn:?
              end
          end;
          cbn [fst snd db dirs execs logs set_db set_dirs add_exec add_log
                 status http_Error written option_map negb]).

(** The transaction of create up to the export-apply step, when the name
    is absent and the store write and the directory creation succeed. *)
Lemma create_tx_reaches_apply
  (E : Env) (name : string) (req : CreateRequest) (w : World) (vb : string)
  (Habsent : bucket_get (db w) name = None)
  (Hmarshal : Marshal_volume E (new_volume E name req) = Ok vb)
  (Hput : Put_err E (db w) name vb = None)
  (Hmkdir : MkdirAll_err E (dirs w) (nfsPath E name) = None) :
  createVolume_tx E name req w
  = (mkWorld (bucket_put (db w) name vb)
       (mkdir_all (dirs w) (nfsPath E name))
       (execs w ++ [(exportfsPath E, exportfs_args (new_volume E name req))])
       (logs w),
     match CombinedOutput E (execs w) (exportfsPath E)
             (exportfs_args (new_volume E name req)) with
     | (out, Some e) =>
         Err (wrap_error (wrap_error e out) "error making nfs export")
     | (_, None) => Ok (Some (new_volume E name req))
     end).
Proof.
  unfold createVolume_tx, bind, Get. rewrite Habsent.
  fold (new_volume E name req).
  unfold wrapM at 1, of_result. rewrite Hmarshal.
  unfold wrapM at 1, Put. rewrite Hput.
  unfold wrapM at 1, MkdirAll. simpl. rewrite Hmkdir.
  rewrite exportfs_run. simpl.
  destruct (CombinedOutput E (execs w) (exportfsPath E)
              (exportfs_args (new_volume E name req))) as [out [e |]];
    reflexivity.
Qed.

Lemma after_Delete_rest (E : Env) (name : string) (w : World) :
  dirs (after_Delete E name w) = dirs w
  /\ execs (after_Delete E name w) = execs w
  /\ logs (after_Delete E name w) = logs w.
Proof. unfold after_Delete. destruct (Delete_err E (db w) name); auto. Qed.

(** The transaction of delete up to the export-retract step, for a record
    that is present and decodes. *)
Lemma delete_tx_reaches_retract
  (E : Env) (name : string) (w : World) (d : string) (v : volume)
  (Hfound : bucket_get (db w) name = Some d)
  (Hdecode : Unmarshal_volume E d = Ok v) :
  deleteVolume_tx E name w
  = match CombinedOutput E (execs w) (exportfsPath E) (unexport_args v) with
    | (out, Some e) =>
        (add_exec (after_Delete E name w) (exportfsPath E) (unexport_args v),
         Err (wrap_error (wrap_error e out) "error unexporting nfs dir"))
    | (_, None) =>
        let w2 :=
          add_exec (after_Delete E name w) (exportfsPath E) (unexport_args v)
        in
        match RemoveAll_err E (dirs w) (Path (Export v)) with
        | Some e =>
            if negb (IsNotExist e)
            then (w2, Err (wrap_error e "error removing volume data"))
            else (w2, Ok tt)
        | None => (set_dirs w2 (remove_all (dirs w) (Path (Export v))), Ok tt)
        end
    end.
Proof.
  unfold deleteVolume_tx, bind, Get. rewrite Hfound.
  unfold catch at 1, Delete, after_Delete.
  destruct (Delete_err E (db w) name) as [e0 |];
    (unfold wrapM at 1, of_result; rewrite Hdecode;
     rewrite unexport_run; simpl execs;
     destruct (CombinedOutput E (execs w) (exportfsPath E) (unexport_args v))
       as [out [e |]]; [reflexivity |];
     unfold catch, RemoveAll; simpl;
     destruct (RemoveAll_err E (dirs w) (Path (Export v))) as [e |];
     [destruct (IsNotExist e) |]; reflexivity).
Qed.

(** A create request that passes the checks runs the transaction and
    answers from its result. *)
Lemma createVolume_checked
  (E : Env) (r : Request) (name : string) (req : CreateRequest) (w : World)
  (Hr : create_request r name)
  (Hbody : Decode_CreateRequest E (Body r) = Ok req) :
  createVolume E r w
  = match db_Update E (createVolume_tx E name req) w with
    | (w', Err err) =>
        (w', Some (http_Error (Error err) StatusInternalServerError))
    | (w', Panic) => (w', None)
    | (w', Ok None) =>
        (w', Some (http_Error "already exists" StatusConflict))
    | (w', Ok (Some v)) =>
        match Marshal_CreateResponse E
                (mkCreateResponse (Name v) (Path (Export v))) with
        | Err err =>
            (w', Some (http_Error
                         (Error (wrap_error err "error marshaling response"))
                         StatusInternalServerError))
        | Panic => (w', None)
        | Ok b => (w', Some (written b))
        end
    end.
Proof.
  destruct Hr as (Hform & Hq & Hname).
  unfold createVolume. now rewrite Hform, Hq, (eqb_name_false _ Hname), Hbody.
Qed.

Lemma deleteVolume_checked
  (E : Env) (r : Request) (name : string) (w : World)
  (Hr : named_request r name) :
  deleteVolume E r w
  = match db_Update E (deleteVolume_tx E name) w with
    | (w', Err err) =>
        (w', Some (http_Error (Error err) StatusInternalServerError))
    | (w', Panic) => (w', None)
    | (w', Ok _) => (w', Some (written ""))
    end.
Proof.
  destruct Hr as (Hform & Hv & Hname).
  unfold deleteVolume. now rewrite Hform, Hv, (eqb_name_false _ Hname).
Qed.

Lemma get_absent_lookup
  (E : Env) (r : Request) (name : string) (w : World)
  (Hr : named_request r name)
  (Habsent : bucket_get (db w) name = None) :
  getVolume E r w = (w, Some (http_Error "volume not found" StatusNotFound)).
Proof.
  destruct Hr as (Hform & Hv & Hname).
  unfold getVolume. rewrite Hform, Hv, (eqb_name_false _ Hname).
  unfold db_View, getVolume_tx, bind, Get, ret. rewrite Habsent.
  now destruct w.
Qed.

Lemma get_found_lookup
  (E : Env) (r : Request) (name : string) (w : World) (d : string)
  (v : volume) (b : string)
  (Hr : named_request r name)
  (Hfound : bucket_get (db w) name = Some d)
  (Hdecode : Unmarshal_volume E d = Ok v)
  (Hresp : Marshal_GetResponse E (mkGetResponse (Name v) (Path (Export v)))
           = Ok b) :
  getVolume E r w = (w, Some (written b)).
Proof.
  destruct Hr as (Hform & Hv & Hname).
  unfold getVolume. rewrite Hform, Hv, (eqb_name_false _ Hname).
  unfold db_View, getVolume_tx, bind, Get, wrapM, of_result, ret.
  rewrite Hfound, Hdecode, Hresp. now destruct w.
Qed.

Lemma create_conflict_run
  (E : Env) (r : Request) (name : string) (req : CreateRequest)
  (w : World) (d : string)
  (Hr : create_request r name)
  (Hbody : Decode_CreateRequest E (Body r) = Ok req)
  (Hfound : bucket_get (db w) name = Some d)
  (Hcommit : Commit_err E (db w) (db w) = None) :
  createVolume E r w = (w, Some (http_Error "already exists" StatusConflict)).
Proof.
  rewrite (createVolume_checked E r name req w Hr Hbody).
  unfold db_Update, createVolume_tx, bind, Get. rewrite Hfound.
  unfold ret. now rewrite Hcommit.
Qed.

Lemma create_apply_failure_run
  (E : Env) (r : Request) (name : string) (req : CreateRequest) (w : World)
  (vb out : string) (e : error)
  (Hr : create_request r name)
  (Hbody : Decode_CreateRequest E (Body r) = Ok req)
  (Habsent : bucket_get (db w) name = None)
  (Hmarshal : Marshal_volume E (new_volume E name req) = Ok vb)
  (Hput : Put_err E (db w) name vb = None)
  (Hmkdir : MkdirAll_err E (dirs w) (nfsPath E name) = None)
  (Hfail : CombinedOutput E (execs w) (exportfsPath E)
             (exportfs_args (new_volume E name req)) = (out, Some e)) :
  createVolume E r w
  = (mkWorld (db w) (mkdir_all (dirs w) (nfsPath E name))
       (execs w ++ [(exportfsPath E, exportfs_args (new_volume E name req))])
       (logs w),
     Some (http_Error ("error making nfs export: " ++ out ++ ": " ++ Error e)
             StatusInternalServerError)).
Proof.
  rewrite (createVolume_checked E r name req w Hr Hbody).
  unfold db_Update.
  rewrite (create_tx_reaches_apply E name req w vb Habsent Hmarshal Hput
             Hmkdir), Hfail.
  reflexivity.
Qed.

Lemma create_success_run
  (E : Env) (r : Request) (name : string) (req : CreateRequest) (w : World)
  (vb out b : string)
  (Hr : create_request r name)
  (Hbody : Decode_CreateRequest E (Body r) = Ok req)
  (Habsent : bucket_get (db w) name = None)
  (Hmarshal : Marshal_volume E (new_volume E name req) = Ok vb)
  (Hput : Put_err E (db w) name vb = None)
  (Hmkdir : MkdirAll_err E (dirs w) (nfsPath E name) = None)
  (Happly : CombinedOutput E (execs w) (exportfsPath E)
              (exportfs_args (new_volume E name req)) = (out, None))
  (Hcommit : Commit_err E (db w) (bucket_put (db w) name vb) = None)
  (Hresp : Marshal_CreateResponse E (mkCreateResponse name (nfsPath E name))
           = Ok b) :
  createVolume E r w
  = (mkWorld (bucket_put (db w) name vb)
       (mkdir_all (dirs w) (nfsPath E name))
       (execs w ++ [(exportfsPath E, exportfs_args (new_volume E name req))])
       (logs w),
     Some (written b)).
Proof.
  rewrite (createVolume_checked E r name req w Hr Hbody).
  unfold db_Update.
  rewrite (create_tx_reaches_apply E name req w vb Habsent Hmarshal Hput
             Hmkdir), Happly.
  cbn [db]. rewrite Hcommit.
  cbn [new_volume Name Export Path]. now rewrite Hresp.
Qed.

Lemma delete_absent_run
  (E : Env) (r : Request) (name : string) (w : World)
  (Hr : named_request r name)
  (Habsent : bucket_get (db w) name = None)
  (Hcommit : Commit_err E (db w) (db w) = None) :
  deleteVolume E r w = (w, Some (written "")).
Proof.
  rewrite (deleteVolume_checked E r name w Hr).
  unfold db_Update, deleteVolume_tx, bind, Get. rewrite Habsent.
  unfold ret. now rewrite Hcommit.
Qed.

Lemma delete_retract_failure_run
  (E : Env) (r : Request) (name : string) (w : World) (d : string)
  (v : volume) (out : string) (e : error)
  (Hr : named_request r name)
  (Hfound : bucket_get (db w) name = Some d)
  (Hdecode : Unmarshal_volume E d = Ok v)
  (Hfail : CombinedOutput E (execs w) (exportfsPath E) (unexport_args v)
           = (out, Some e)) :
  deleteVolume E r w
  = (mkWorld (db w) (dirs w)
       (execs w ++ [(exportfsPath E, unexport_args v)]) (logs w),
     Some (http_Error
             ("error unexporting nfs dir: " ++ out ++ ": " ++ Error e)
             StatusInternalServerError)).
Proof.
  destruct (after_Delete_rest E name w) as (Hdirs & Hexecs & Hlogs).
  rewrite (deleteVolume_checked E r name w Hr).
  unfold db_Update.
  rewrite (delete_tx_reaches_retract E name w d v Hfound Hdecode), Hfail.
  unfold set_db, add_exec. simpl. now rewrite Hdirs, Hexecs, Hlogs.
Qed.

Lemma delete_success_run
  (E : Env) (r : Request) (name : string) (w : World) (d : string)
  (v : volume) (out : string)
  (Hr : named_request r name)
  (Hfound : bucket_get (db w) name = Some d)
  (Hdelete : Delete_err E (db w) name = None)
  (Hdecode : Unmarshal_volume E d = Ok v)
  (Hretract : CombinedOutput E (execs w) (exportfsPath E) (unexport_args v)
              = (out, None))
  (Hremove : RemoveAll_err E (dirs w) (Path (Export v)) = None)
  (Hcommit : Commit_err E (db w) (bucket_delete (db w) name) = None) :
  deleteVolume E r w
  = (mkWorld (bucket_delete (db w) name)
       (remove_all (dirs w) (Path (Export v)))
       (execs w ++ [(exportfsPath E, unexport_args v)]) (logs w),
     Some (written "")).
Proof.
  rewrite (deleteVolume_checked E r name w Hr).
  unfold db_Update.
  rewrite (delete_tx_reaches_retract E name w d v Hfound Hdecode),
    Hretract, Hremove.
  unfold after_Delete. rewrite Hdelete. cbn [db set_db set_dirs add_exec].
  now rewrite Hcommit.
Qed.



(* ================================================================== *)
(** ** create on an existing name *)

(** C6.  When a record for the name exists and the store commits the
    transaction, empty as it is, create leaves the whole world as it was
    (no store write, no directory, no command run, no log line) and answers
    409 [already exists], a status other than the 500 of internal
    errors. *)
Theorem create_existing_reports_conflict
  (E : Env) (r : Request) (name : string) (req : CreateRequest)
  (w : World) (d : string)
  (Hr : create_request r name)
  (Hbody : Decode_CreateRequest E (Body r) = Ok req)
  (Hfound : bucket_get (db w) name = Some d)
  (Hcommit : Commit_err E (db w) (db w) = None) :
  createVolume E r w = (w, Some (http_Error "already exists" StatusConflict))
  /\ status (http_Error "already exists" StatusConflict) = 409
  /\ StatusConflict <> StatusInternalServerError.
Proof.
  repeat split; try discriminate.
  exact (create_conflict_run E r name req w d Hr Hbody Hfound Hcommit).
Qed.

Lemma create_existing_reports_conflict_witness :
  createVolume (Demo.env "/data" Demo.never false) (Demo.post "data1")
    Demo.with_data1
  = (Demo.with_data1, Some (http_Error "already exists" StatusConflict))
  /\ status (http_Error "already exists" StatusConflict) = 409
  /\ StatusConflict <> StatusInternalServerError.
Proof.
  apply (create_existing_reports_conflict
           (Demo.env "/data" Demo.never false) (Demo.post "data1") "data1"
           (mkCreateRequest Demo.hosts "rw") Demo.with_data1
           (Demo.json_volume Demo.data1)).
  - repeat split; discriminate.
  - reflexivity.
  - reflexivity.
  - reflexivity.
Defined.

(* ================================================================== *)
(** ** delete on an absent name *)

(** C5.  For a name that is not in the store, delete answers 200 and
    leaves the whole world as it was, the store committing the empty
    transaction; in particular no command is run.  Deleting it a second
    time does the same. *)
Theorem delete_absent_is_noop
  (E : Env) (r : Request) (name : string) (w : World)
  (Hr : named_request r name)
  (Habsent : bucket_get (db w) name = None)
  (Hcommit : Commit_err E (db w) (db w) = None) :
  deleteVolume E r w = (w, Some (written ""))
  /\ deleteVolume E r (fst (deleteVolume E r w)) = (w, Some (written ""))
  /\ execs (fst (deleteVolume E r (fst (deleteVolume E r w)))) = execs w.
Proof.
  pose proof (delete_absent_run E r name w Hr Habsent Hcommit) as once.
  rewrite once. simpl. rewrite once. auto.
Qed.

Lemma delete_absent_is_noop_witness :
  deleteVolume (Demo.env "/data" Demo.always false) (Demo.by_name "data2")
    Demo.with_data1
  = (Demo.with_data1, Some (written ""))
  /\ deleteVolume (Demo.env "/data" Demo.always false) (Demo.by_name "data2")
       (fst (deleteVolume (Demo.env "/data" Demo.always false)
               (Demo.by_name "data2") Demo.with_data1))
     = (Demo.with_data1, Some (written ""))
  /\ execs (fst (deleteVolume (Demo.env "/data" Demo.always false)
                   (Demo.by_name "data2")
                   (fst (deleteVolume (Demo.env "/data" Demo.always false)
                           (Demo.by_name "data2") Demo.with_data1))))
     = execs Demo.with_data1.
Proof.
  apply (delete_absent_is_noop (Demo.env "/data" Demo.always false)
           (Demo.by_name "data2") "data2" Demo.with_data1).
  - repeat split; discriminate.
  - reflexivity.
  - reflexivity.
Defined.

(* ================================================================== *)
(** ** create whose export fails *)

(** C1, as the code has it.  When the export-apply step of a create fails,
    the error is answered with status 500 and the record write is rolled
    back, so that the store is as before and a get of the name answers
    not-found; the command has run once; the directory made for the volume
    is still there. *)
Theorem create_apply_failure_rolls_back_record_only
  (E : Env) (r g : Request) (name : string) (req : CreateRequest)
  (w : World) (vb out : string) (e : error)
  (Hr : create_request r name)
  (Hg : named_request g name)
  (Hbody : Decode_CreateRequest E (Body r) = Ok req)
  (Habsent : bucket_get (db w) name = None)
  (Hmarshal : Marshal_volume E (new_volume E name req) = Ok vb)
  (Hput : Put_err E (db w) name vb = None)
  (Hmkdir : MkdirAll_err E (dirs w) (nfsPath E name) = None)
  (Hfail : CombinedOutput E (execs w) (exportfsPath E)
             (exportfs_args (new_volume E name req)) = (out, Some e)) :
  snd (createVolume E r w)
  = Some (http_Error ("error making nfs export: " ++ out ++ ": " ++ Error e)
            StatusInternalServerError)
  /\ db (fst (createVolume E r w)) = db w
  /\ snd (getVolume E g (fst (createVolume E r w)))
     = Some (http_Error "volume not found" StatusNotFound)
  /\ execs (fst (createVolume E r w))
     = (execs w ++ [(exportfsPath E, exportfs_args (new_volume E name req))])%list
  /\ dir_exists (dirs (fst (createVolume E r w))) (nfsPath E name) = true.
Proof.
  rewrite (create_apply_failure_run E r name req w vb out e Hr Hbody Habsent
             Hmarshal Hput Hmkdir Hfail).
  cbn [fst snd db dirs execs]. repeat split.
  - now rewrite (get_absent_lookup E g name _ Hg).
  - apply mkdir_all_exists, nfsPath_nonempty.
Qed.

Lemma create_apply_failure_rolls_back_record_only_witness :
  snd (createVolume (Demo.env "/data" Demo.always false)
         (Demo.post "data1") Demo.fresh)
  = Some (http_Error
            "error making nfs export: exportfs: failed: exit status 1"
            StatusInternalServerError)
  /\ db (fst (createVolume (Demo.env "/data" Demo.always false)
                (Demo.post "data1") Demo.fresh)) = []
  /\ snd (getVolume (Demo.env "/data" Demo.always false)
            (Demo.by_name "data1")
            (fst (createVolume (Demo.env "/data" Demo.always false)
                    (Demo.post "data1") Demo.fresh)))
     = Some (http_Error "volume not found" StatusNotFound)
  /\ dir_exists
       (dirs (fst (createVolume (Demo.env "/data" Demo.always false)
                     (Demo.post "data1") Demo.fresh)))
       "/data/nfs/data1" = true.
Proof.
  pose proof (create_apply_failure_rolls_back_record_only
                (Demo.env "/data" Demo.always false) (Demo.post "data1")
                (Demo.by_name "data1")
                "data1" (mkCreateRequest Demo.hosts "rw") Demo.fresh
                (Demo.json_volume Demo.data1) "exportfs: failed"
                Demo.exit_status_1) as H.
  destruct H as (Hresp & Hdb & Hget & _ & Hdir).
  - repeat split; discriminate.
  - repeat split; discriminate.
  - reflexivity.
  - reflexivity.
  - reflexivity.
  - reflexivity.
  - reflexivity.
  - reflexivity.
  - split; [exact Hresp |]. split; [exact Hdb |].
    split; [exact Hget | exact Hdir].
Defined.

(** C1, as stated, fails: in a fresh deployment whose [exportfs] binary
    fails, create of [data1] answers 500, the store stays empty, and the
    directory [/data/nfs/data1], absent before, remains on the
    filesystem. *)
Lemma create_apply_failure_leaves_directory :
  snd (createVolume (Demo.env "/data" Demo.always false)
         (Demo.post "data1") Demo.fresh)
  = Some (http_Error
            "error making nfs export: exportfs: failed: exit status 1"
            StatusInternalServerError)
  /\ status_of (getVolume (Demo.env "/data" Demo.always false)
                  (Demo.by_name "data1")
                  (fst (createVolume (Demo.env "/data" Demo.always false)
                          (Demo.post "data1") Demo.fresh)))
     = Some StatusNotFound
  /\ dir_exists (dirs Demo.fresh) "/data/nfs/data1" = false
  /\ dir_exists
       (dirs (fst (createVolume (Demo.env "/data" Demo.always false)
                     (Demo.post "data1") Demo.fresh)))
       "/data/nfs/data1" = true.
Proof. repeat split. Qed.

(* ================================================================== *)
(** ** delete whose retract or store deletion fails *)

(** C2, as the code has it.  When the export-retract step of a delete of a
    persisted volume fails, the error is answered with status 500 and the
    transaction is rolled back with it: the store is as before, the record
    is still present, and a get of the name does not answer not-found.
    The directory is not removed. *)
Theorem delete_retract_failure_keeps_record
  (E : Env) (r g : Request) (name : string) (w : World) (d : string)
  (v : volume) (out : string) (e : error)
  (Hr : named_request r name)
  (Hg : named_request g name)
  (Hfound : bucket_get (db w) name = Some d)
  (Hdecode : Unmarshal_volume E d = Ok v)
  (Hfail : CombinedOutput E (execs w) (exportfsPath E) (unexport_args v)
           = (out, Some e)) :
  snd (deleteVolume E r w)
  = Some (http_Error ("error unexporting nfs dir: " ++ out ++ ": " ++ Error e)
            StatusInternalServerError)
  /\ db (fst (deleteVolume E r w)) = db w
  /\ bucket_get (db (fst (deleteVolume E r w))) name = Some d
  /\ status_of (getVolume E g (fst (deleteVolume E r w)))
     <> Some StatusNotFound
  /\ dirs (fst (deleteVolume E r w)) = dirs w.
Proof.
  rewrite (delete_retract_failure_run E r name w d v out e Hr Hfound Hdecode
             Hfail).
  cbn [fst snd db dirs]. repeat split; try assumption.
  destruct Hg as (Hform & Hv & Hname).
  unfold status_of, getVolume. rewrite Hform, Hv, (eqb_name_false _ Hname).
  unfold db_View, getVolume_tx, bind, Get, wrapM, of_result. simpl.
  rewrite Hfound, Hdecode. unfold ret.
  destruct (Marshal_GetResponse E
              (mkGetResponse (Name v) (Path (Export v)))); discriminate.
Qed.

Lemma delete_retract_failure_keeps_record_witness :
  snd (deleteVolume (Demo.env "/data" Demo.always false)
         (Demo.by_name "data1") Demo.with_data1)
  = Some (http_Error
            "error unexporting nfs dir: exportfs: failed: exit status 1"
            StatusInternalServerError)
  /\ bucket_get
       (db (fst (deleteVolume (Demo.env "/data" Demo.always false)
                   (Demo.by_name "data1") Demo.with_data1))) "data1"
     = Some (Demo.json_volume Demo.data1)
  /\ status_of (getVolume (Demo.env "/data" Demo.always false)
                  (Demo.by_name "data1")
                  (fst (deleteVolume (Demo.env "/data" Demo.always false)
                          (Demo.by_name "data1") Demo.with_data1)))
     <> Some StatusNotFound.
Proof.
  pose proof (delete_retract_failure_keeps_record
                (Demo.env "/data" Demo.always false) (Demo.by_name "data1")
                (Demo.by_name "data1")
                "data1" Demo.with_data1 (Demo.json_volume Demo.data1)
                Demo.data1 "exportfs: failed" Demo.exit_status_1) as H.
  destruct H as (Hresp & _ & Hget & Hnot & _).
  - repeat split; discriminate.
  - repeat split; discriminate.
  - reflexivity.
  - reflexivity.
  - reflexivity.
  - split; [exact Hresp |]. split; [exact Hget | exact Hnot].
Defined.

(** C2, as stated, fails: with [data1] persisted and an [exportfs] binary
    that fails, delete answers the retract error with status 500, and a
    get of [data1] afterwards answers 200 with the volume: the record is
    not absent. *)
Lemma delete_retract_failure_record_still_found :
  snd (deleteVolume (Demo.env "/data" Demo.always false)
         (Demo.by_name "data1") Demo.with_data1)
  = Some (http_Error
            "error unexporting nfs dir: exportfs: failed: exit status 1"
            StatusInternalServerError)
  /\ snd (getVolume (Demo.env "/data" Demo.always false)
            (Demo.by_name "data1")
            (fst (deleteVolume (Demo.env "/data" Demo.always false)
                    (Demo.by_name "data1") Demo.with_data1)))
     = Some (written (Demo.json_response "data1" "/data/nfs/data1"))
  /\ status_of (getVolume (Demo.env "/data" Demo.always false)
                  (Demo.by_name "data1")
                  (fst (deleteVolume (Demo.env "/data" Demo.always false)
                          (Demo.by_name "data1") Demo.with_data1)))
     <> Some StatusNotFound.
Proof. repeat split. discriminate. Qed.



(** Whatever happens later in the transaction, a failed [b.Delete] leaves
    the bucket as it was, whether the transaction commits or not. *)
Lemma delete_store_failure_keeps_bucket
  (E : Env) (r : Request) (w : World) (e0 : error)
  (Hdelete : Delete_err E (db w) (vars_name r) = Some e0) :
  db (fst (deleteVolume E r w)) = db w.
Proof.
  revert Hdelete. unfold_handlers. split_cases; intro H;
    try reflexivity; congruence.
Qed.

(* ================================================================== *)
(** ** Reload *)

(** One record that decodes to a volume: its export is applied, a failure
    is logged, and the iteration goes on. *)
Lemma Reload_each_decoded
  (E : Env) (k d : string) (vol : volume) (w : World)
  (Hdecode : Unmarshal_volume_ptr E d = Ok (Some vol)) :
  Reload_each E k d w
  = (mkWorld (db w) (dirs w)
       (execs w ++ [(exportfsPath E, exportfs_args vol)])
       (logs w ++ reload_logs E (execs w) [vol]),
     Ok tt).
Proof.
  unfold Reload_each, bind, wrapM, of_result. rewrite Hdecode.
  unfold catch. rewrite exportfs_run. simpl.
  destruct (CombinedOutput E (execs w) (exportfsPath E) (exportfs_args vol))
    as [out [e |]]; simpl.
  - reflexivity.
  - unfold ret, add_exec. simpl. now rewrite app_nil_r.
Qed.

Lemma ForEach_decoded (E : Env) (b : Bucket) :
  forall (vols : list volume) (w : World),
    map (fun kv => Unmarshal_volume_ptr E (snd kv)) b
    = map (fun vol => Ok (Some vol)) vols ->
    ForEach (Reload_each E) b w
    = (mkWorld (db w) (dirs w)
         (execs w ++ map (fun vol => (exportfsPath E, exportfs_args vol)) vols)
         (logs w ++ reload_logs E (execs w) vols),
       Ok tt).
Proof.
  induction b as [| [k d] rest IH]; intros vols w Hmap.
  - destruct vols; [| discriminate]. simpl.
    rewrite !app_nil_r. now destruct w.
  - destruct vols as [| vol vols]; [discriminate |].
    simpl in Hmap. injection Hmap as Hd Hrest.
    cbn [ForEach]. unfold bind.
    rewrite (Reload_each_decoded E k d vol w Hd).
    rewrite (IH vols _ Hrest). cbn [db dirs execs logs reload_logs map].
    f_equal. f_equal.
    + now rewrite <- app_assoc.
    + rewrite <- app_assoc. f_equal.
      destruct (CombinedOutput E (execs w) (exportfsPath E)
                  (exportfs_args vol)) as [out [e |]]; reflexivity.
Qed.

(** C3, as the code has it.  For every store whose records all decode to a
    volume, Reload applies the export of every record, in key order, one
    command each; an apply that fails is written to the log and changes
    nothing else: Reload returns no error, the store is as before, and
    [main] goes on to serve. *)
Theorem reload_applies_every_decoded_record
  (E : Env) (w : World) (vols : list volume)
  (Hdecode : map (fun kv => Unmarshal_volume_ptr E (snd kv)) (db w)
             = map (fun vol => Ok (Some vol)) vols) :
  Reload E w
  = (mkWorld (db w) (dirs w)
       (execs w ++ map (fun vol => (exportfsPath E, exportfs_args vol)) vols)
       (logs w ++ reload_logs E (execs w) vols),
     Ok tt)
  /\ snd (main_reload E w) = Running.
Proof.
  assert (Reload E w
          = (mkWorld (db w) (dirs w)
               (execs w ++
                  map (fun vol => (exportfsPath E, exportfs_args vol)) vols)
               (logs w ++ reload_logs E (execs w) vols),
             Ok tt)) as run.
  { unfold Reload, db_View. now rewrite (ForEach_decoded E (db w) vols w). }
  split; [exact run |]. unfold main_reload. now rewrite run.
Qed.

Lemma reload_applies_every_decoded_record_witness :
  Reload (Demo.env "/data" Demo.always false)
    (mkWorld [("data1", Demo.json_volume Demo.data1);
              ("data2", Demo.json_volume Demo.data2)] [] [] [])
  = (mkWorld [("data1", Demo.json_volume Demo.data1);
              ("data2", Demo.json_volume Demo.data2)] []
       [("/usr/sbin/exportfs", ["-o"; "rw"; "10.0.0.0/24:/data/nfs/data1"]);
        ("/usr/sbin/exportfs", ["-o"; "rw"; "10.0.0.0/24:/data/nfs/data2"])]
       (reload_logs (Demo.env "/data" Demo.always false) []
          [Demo.data1; Demo.data2]),
     Ok tt)
  /\ snd (main_reload (Demo.env "/data" Demo.always false)
            (mkWorld [("data1", Demo.json_volume Demo.data1);
                      ("data2", Demo.json_volume Demo.data2)] [] [] []))
     = Running.
Proof.
  apply (reload_applies_every_decoded_record
           (Demo.env "/data" Demo.always false)
           (mkWorld [("data1", Demo.json_volume Demo.data1);
                     ("data2", Demo.json_volume Demo.data2)] [] [] [])
           [Demo.data1; Demo.data2]).
  reflexivity.
Defined.

(** A record that does not decode ends the iteration: Reload returns the
    wrapped error, the records after it are not visited, and [main]
    exits. *)
Lemma reload_stops_at_undecodable_record
  (E : Env) (w : World) (before after : Bucket) (k d : string)
  (vols : list volume) (e : error)
  (Hdb : db w = (before ++ (k, d) :: after)%list)
  (Hbefore : map (fun kv => Unmarshal_volume_ptr E (snd kv)) before
             = map (fun vol => Ok (Some vol)) vols)
  (Hbad : Unmarshal_volume_ptr E d = Err e) :
  Reload E w
  = (mkWorld (db w) (dirs w)
       (execs w ++ map (fun vol => (exportfsPath E, exportfs_args vol)) vols)
       (logs w ++ reload_logs E (execs w) vols),
     Err (wrap_error e "error unmarshaling volume from database"))
  /\ snd (main_reload E w) = Exited 1.
Proof.
  assert (forall b vs w0,
             map (fun kv => Unmarshal_volume_ptr E (snd kv)) b
             = map (fun vol => Ok (Some vol)) vs ->
             ForEach (Reload_each E) (b ++ (k, d) :: after)%list w0
             = (mkWorld (db w0) (dirs w0)
                  (execs w0 ++
                     map (fun vol => (exportfsPath E, exportfs_args vol)) vs)
                  (logs w0 ++ reload_logs E (execs w0) vs),
                Err (wrap_error e "error unmarshaling volume from database")))
    as loop.
  { intro b. induction b as [| [k0 d0] rest IH]; intros vs w0 Hmap.
    - destruct vs; [| discriminate]. simpl.
      unfold bind, Reload_each at 1, bind, wrapM, of_result. rewrite Hbad.
      rewrite !app_nil_r. now destruct w0.
    - destruct vs as [| vol vs]; [discriminate |].
      simpl in Hmap. injection Hmap as Hd Hrest.
      cbn [ForEach app]. unfold bind at 1.
      rewrite (Reload_each_decoded E k0 d0 vol w0 Hd).
      rewrite (IH vs _ Hrest). cbn [db dirs execs logs reload_logs map].
      f_equal. f_equal.
      + now rewrite <- app_assoc.
      + rewrite <- app_assoc. f_equal.
        destruct (CombinedOutput E (execs w0) (exportfsPath E)
                    (exportfs_args vol)) as [out [e1 |]]; reflexivity. }
  assert (Reload E w
          = (mkWorld (db w) (dirs w)
               (execs w ++
                  map (fun vol => (exportfsPath E, exportfs_args vol)) vols)
               (logs w ++ reload_logs E (execs w) vols),
             Err (wrap_error e "error unmarshaling volume from database")))
    as run.
  { unfold Reload, db_View. rewrite Hdb at 1. now rewrite (loop before vols w). }
  split; [exact run |]. unfold main_reload. now rewrite run.
Qed.

(** A record holding the JSON [null] decodes to a nil [*volume], which
    [exportfs] dereferences: Reload panics and the process crashes. *)
Example reload_panics_on_null_record :
  main_reload (Demo.env "/data" Demo.never false)
    (mkWorld [("data1", "null")] [] [] [])
  = (mkWorld [("data1", "null")] [] [] [], Crashed).
Proof. reflexivity. Qed.

(** C3, as stated, fails: with an undecodable record under [data1] and a
    good one under [data2], Reload returns an error, the export of [data2]
    is never applied (no command is run), nothing is logged, and the
    process exits with status 1. *)
Lemma reload_aborts_on_undecodable_record :
  Reload (Demo.env "/data" Demo.never false)
    (mkWorld [("data1", "x"); ("data2", Demo.json_volume Demo.data2)]
       [] [] [])
  = (mkWorld [("data1", "x"); ("data2", Demo.json_volume Demo.data2)]
       [] [] [],
     Err (wrap_error Demo.syntax_error
            "error unmarshaling volume from database"))
  /\ main_reload (Demo.env "/data" Demo.never false)
       (mkWorld [("data1", "x"); ("data2", Demo.json_volume Demo.data2)]
          [] [] [])
     = (mkWorld [("data1", "x"); ("data2", Demo.json_volume Demo.data2)]
          [] [] [],
        Exited 1).
Proof. split; reflexivity. Qed.

(* ================================================================== *)
(** ** The path of a volume *)

Lemma append_same_l (a b : string) : (a ++ b)%string = a -> b = "".
Proof.
  induction a as [| c a IH]; simpl; [auto |].
  intro H. injection H as H. auto.
Qed.

(** C4, as the code has it.  The path of a volume is computed from the
    root and the name alone, by [filepath.Join], never from the request
    body.  For every name all of whose elements are ordinary (no empty
    element, so no leading, trailing or doubled separator, and no [.] or
    [..] element) and every hosts and options, the path is
    [<root>/nfs/<name>], strictly inside the [nfs] directory of the root,
    and a create that succeeds answers it, stores it and makes the
    directory. *)
Theorem create_path_of_safe_name
  (E : Env) (r : Request) (name : string) (req : CreateRequest) (w : World)
  (vb out b : string)
  (Hr : create_request r name)
  (Hbody : Decode_CreateRequest E (Body r) = Ok req)
  (Hsafe : safe_name name = true)
  (Habsent : bucket_get (db w) name = None)
  (Hmarshal : Marshal_volume E (new_volume E name req) = Ok vb)
  (Hput : Put_err E (db w) name vb = None)
  (Hmkdir : MkdirAll_err E (dirs w) (nfsPath E name) = None)
  (Happly : CombinedOutput E (execs w) (exportfsPath E)
              (exportfs_args (new_volume E name req)) = (out, None))
  (Hcommit : Commit_err E (db w) (bucket_put (db w) name vb) = None)
  (Hresp : Marshal_CreateResponse E
             (mkCreateResponse name
                (filepath_Join [root E; "nfs"] ++ "/" ++ name))
           = Ok b) :
  Path (Export (new_volume E name req))
  = (filepath_Join [root E; "nfs"] ++ "/" ++ name)%string
  /\ is_under (filepath_Join [root E; "nfs"])
       (Path (Export (new_volume E name req))) = true
  /\ Path (Export (new_volume E name req)) <> filepath_Join [root E; "nfs"]
  /\ snd (createVolume E r w) = Some (written b)
  /\ bucket_get (db (fst (createVolume E r w))) name = Some vb
  /\ dir_exists (dirs (fst (createVolume E r w)))
       (filepath_Join [root E; "nfs"] ++ "/" ++ name) = true.
Proof.
  pose proof (nfsPath_safe E name Hsafe) as Hpath.
  assert (Marshal_CreateResponse E (mkCreateResponse name (nfsPath E name))
          = Ok b) as Hresp' by (now rewrite Hpath).
  rewrite (create_success_run E r name req w vb out b Hr Hbody Habsent
             Hmarshal Hput Hmkdir Happly Hcommit Hresp').
  cbn [fst snd db dirs new_volume Export Path].
  repeat split.
  - exact Hpath.
  - rewrite Hpath. apply is_under_child.
  - rewrite Hpath. intro H. apply append_same_l in H. discriminate.
  - apply bucket_get_put.
  - rewrite <- Hpath. apply mkdir_all_exists, nfsPath_nonempty.
Qed.

Lemma create_path_of_safe_name_witness :
  Path (Export (new_volume (Demo.env "/data" Demo.never false) "team1/vol.1"
                  (mkCreateRequest Demo.hosts "rw")))
  = "/data/nfs/team1/vol.1"
  /\ is_under "/data/nfs"
       (Path (Export (new_volume (Demo.env "/data" Demo.never false)
                        "team1/vol.1" (mkCreateRequest Demo.hosts "rw"))))
     = true
  /\ snd (createVolume (Demo.env "/data" Demo.never false)
            (Demo.post "team1/vol.1") Demo.fresh)
     = Some (written (Demo.json_response "team1/vol.1"
                        "/data/nfs/team1/vol.1"))
  /\ dir_exists
       (dirs (fst (createVolume (Demo.env "/data" Demo.never false)
                     (Demo.post "team1/vol.1") Demo.fresh)))
       "/data/nfs/team1/vol.1" = true.
Proof.
  pose proof (create_path_of_safe_name
                (Demo.env "/data" Demo.never false) (Demo.post "team1/vol.1")
                "team1/vol.1" (mkCreateRequest Demo.hosts "rw") Demo.fresh
                (Demo.json_volume
                   (mkVolume "team1/vol.1"
                      (mkExport "/data/nfs/team1/vol.1" Demo.hosts "rw")))
                ""
                (Demo.json_response "team1/vol.1" "/data/nfs/team1/vol.1"))
    as H.
  destruct H as (Hpath & Hunder & _ & Hresp & _ & Hdir).
  - repeat split; discriminate.
  - reflexivity.
  - reflexivity.
  - reflexivity.
  - reflexivity.
  - reflexivity.
  - reflexivity.
  - reflexivity.
  - reflexivity.
  - reflexivity.
  - split; [exact Hpath |]. split; [exact Hunder |].
    split; [exact Hresp | exact Hdir].
Defined.

(** C4, as stated, fails: under the root [/var/lib/nfsg] a create for the
    name [../../../../etc] succeeds with the path [/etc], which is not
    [<root>/nfs/<name>] and does not lie inside [/var/lib/nfsg/nfs]; the
    directory [/etc] is what it makes and what it records. *)
Lemma create_path_escapes_nfs_dir :
  nfsPath (Demo.env "/var/lib/nfsg" Demo.never false) "../../../../etc"
  = "/etc"
  /\ snd (createVolume (Demo.env "/var/lib/nfsg" Demo.never false)
            (Demo.post "../../../../etc")
            (mkWorld [] ["/"; "/var"; "/var/lib"; "/var/lib/nfsg";
                         "/var/lib/nfsg/nfs"] [] []))
     = Some (written (Demo.json_response "../../../../etc" "/etc"))
  /\ dirs (fst (createVolume (Demo.env "/var/lib/nfsg" Demo.never false)
                  (Demo.post "../../../../etc")
                  (mkWorld [] ["/"; "/var"; "/var/lib"; "/var/lib/nfsg";
                               "/var/lib/nfsg/nfs"] [] [])))
     = ["/"; "/var"; "/var/lib"; "/var/lib/nfsg"; "/var/lib/nfsg/nfs";
        "/etc"]
  /\ "/etc" <> "/var/lib/nfsg/nfs/../../../../etc"
  /\ is_under "/var/lib/nfsg/nfs" "/etc" = false.
Proof. repeat split. discriminate. Qed.

(* ================================================================== *)
(** ** Two creates of one name *)




(* ================================================================== *)
(** ** get *)

(** get is a pure lookup: whatever the request and the store, the world
    after it is the world before. *)
Theorem get_changes_nothing (E : Env) (r : Request) (w : World) :
  fst (getVolume E r w) = w.
Proof.
  unfold getVolume.
  destruct (ParseForm r); [reflexivity |].
  destruct (vars_name r =? ""); [reflexivity |].
  unfold db_View, getVolume_tx, bind, Get, wrapM, of_result, ret.
  destruct (bucket_get (db w) (vars_name r)) as [d |]; simpl;
    [| now destruct w].
  destruct (Unmarshal_volume E d) as [v | e |]; simpl; try (now destruct w).
  destruct (Marshal_GetResponse E _); simpl; now destruct w.
Qed.

(* ================================================================== *)
(** ** What the handlers answer and what they leave alone *)

(** The status codes of the three handlers: create answers 200, 400, 409 or
    500; get answers 200, 400, 404 or 500; delete answers 200, 400 or
    500. *)
Theorem handlers_status_codes (E : Env) (r : Request) (w : World) :
  match status_of (createVolume E r w) with
  | Some code => In code [200; 400; 409; 500]
  | None => True
  end
  /\ match status_of (getVolume E r w) with
     | Some code => In code [200; 400; 404; 500]
     | None => True
     end
  /\ match status_of (deleteVolume E r w) with
     | Some code => In code [200; 400; 500]
     | None => True
     end.
Proof.
  unfold status_of. repeat split; unfold_handlers; split_cases;
    simpl; auto 6.
Qed.



(** A request runs the external command at most once and writes nothing
    to the log: create and delete leave the log as it was and add at most
    one entry to the commands run. *)
Theorem handlers_run_at_most_one_command
  (E : Env) (r : Request) (w : World) :
  logs (fst (createVolume E r w)) = logs w
  /\ at_most_one_more (execs w) (execs (fst (createVolume E r w)))
  /\ logs (fst (deleteVolume E r w)) = logs w
  /\ at_most_one_more (execs w) (execs (fst (deleteVolume E r w))).
Proof.
  unfold at_most_one_more.
  repeat split; unfold_handlers; split_cases; try reflexivity; eauto.
Qed.

(** create never removes a directory: one that exists before the request
    exists after it. *)
Theorem create_keeps_directories
  (E : Env) (r : Request) (w : World) (p : string)
  (Hp : dir_exists (dirs w) p = true) :
  dir_exists (dirs (fst (createVolume E r w))) p = true.
Proof.
  unfold_handlers; split_cases; try exact Hp;
    now apply fold_add_dir_keeps.
Qed.

Lemma create_keeps_directories_witness :
  dir_exists
    (dirs (fst (createVolume (Demo.env "/data" Demo.never false)
                  (Demo.request "data2") Demo.with_data1)))
    "/data/nfs/data1" = true.
Proof.
  apply (create_keeps_directories (Demo.env "/data" Demo.never false)
           (Demo.request "data2") Demo.with_data1 "/data/nfs/data1").
  reflexivity.
Defined.

(* ================================================================== *)
(** ** Requests that are rejected *)

(** A request whose form does not parse, or that names no volume, is
    answered 400 by each of the three handlers, and the world is left as it
    was. *)
Theorem request_without_name_is_rejected
  (E : Env) (r : Request) (w : World)
  (Hbad : ParseForm r <> None \/ (query_name r = "" /\ vars_name r = "")) :
  status_of (createVolume E r w) = Some StatusBadRequest
  /\ status_of (getVolume E r w) = Some StatusBadRequest
  /\ status_of (deleteVolume E r w) = Some StatusBadRequest
  /\ fst (createVolume E r w) = w
  /\ fst (getVolume E r w) = w
  /\ fst (deleteVolume E r w) = w.
Proof.
  unfold status_of, createVolume, getVolume, deleteVolume.
  destruct Hbad as [Hform | [Hq Hv]].
  - destruct (ParseForm r); [| congruence]. repeat split.
  - rewrite Hq, Hv. destruct (ParseForm r); repeat split.
Qed.

Lemma request_without_name_is_rejected_witness :
  status_of (createVolume (Demo.env "/data" Demo.never false)
               (Demo.request "") Demo.with_data1) = Some StatusBadRequest
  /\ status_of (getVolume (Demo.env "/data" Demo.never false)
                  (Demo.request "") Demo.with_data1) = Some StatusBadRequest
  /\ status_of (deleteVolume (Demo.env "/data" Demo.never false)
                  (Demo.request "") Demo.with_data1) = Some StatusBadRequest
  /\ fst (createVolume (Demo.env "/data" Demo.never false)
            (Demo.request "") Demo.with_data1) = Demo.with_data1
  /\ fst (getVolume (Demo.env "/data" Demo.never false)
            (Demo.request "") Demo.with_data1) = Demo.with_data1
  /\ fst (deleteVolume (Demo.env "/data" Demo.never false)
            (Demo.request "") Demo.with_data1) = Demo.with_data1.
Proof.
  apply (request_without_name_is_rejected (Demo.env "/data" Demo.never false)
           (Demo.request "") Demo.with_data1).
  right. split; reflexivity.
Defined.

(** A create whose body does not decode is answered 400 with the decoding
    error, before the store is looked at: the world is left as it was, even
    when the name exists. *)
Theorem create_malformed_body_is_rejected
  (E : Env) (r : Request) (name : string) (w : World) (e : error)
  (Hr : create_request r name)
  (Hbody : Decode_CreateRequest E (Body r) = Err e) :
  createVolume E r w
  = (w, Some (http_Error ("error decoding request: " ++ Error e)
                StatusBadRequest)).
Proof.
  destruct Hr as (Hform & Hq & Hname).
  unfold createVolume. now rewrite Hform, Hq, (eqb_name_false _ Hname), Hbody.
Qed.

Lemma create_malformed_body_is_rejected_witness :
  createVolume (Demo.env "/data" Demo.never false)
    (mkRequest None "data1" "" "x") Demo.with_data1
  = (Demo.with_data1,
     Some (http_Error
             ("error decoding request: " ++ Error Demo.syntax_error)
             StatusBadRequest)).
Proof.
  apply (create_malformed_body_is_rejected
           (Demo.env "/data" Demo.never false)
           (mkRequest None "data1" "" "x") "data1" Demo.with_data1
           Demo.syntax_error).
  - repeat split; discriminate.
  - reflexivity.
Defined.

(* ================================================================== *)
(** ** get: the three outcomes of a lookup *)

(** A get of a name that is not in the store answers 404. *)
Theorem get_absent_is_not_found
  (E : Env) (r : Request) (name : string) (w : World)
  (Hr : named_request r name)
  (Habsent : bucket_get (db w) name = None) :
  getVolume E r w = (w, Some (http_Error "volume not found" StatusNotFound)).
Proof.
  destruct Hr as (Hform & Hv & Hname).
  unfold getVolume. rewrite Hform, Hv, (eqb_name_false _ Hname).
  unfold db_View, getVolume_tx, bind, Get, ret. rewrite Habsent.
  now destruct w.
Qed.

Lemma get_absent_is_not_found_witness :
  getVolume (Demo.env "/data" Demo.never false) (Demo.by_name "data2")
    Demo.with_data1
  = (Demo.with_data1, Some (http_Error "volume not found" StatusNotFound)).
Proof.
  apply (get_absent_is_not_found (Demo.env "/data" Demo.never false)
           (Demo.by_name "data2") "data2" Demo.with_data1).
  - repeat split; discriminate.
  - reflexivity.
Defined.

(** A get of a stored record answers 200 with the name and the path that
    the record holds (not with the key it is stored under). *)
Theorem get_found_answers_record
  (E : Env) (r : Request) (name : string) (w : World) (d : string)
  (v : volume) (b : string)
  (Hr : named_request r name)
  (Hfound : bucket_get (db w) name = Some d)
  (Hdecode : Unmarshal_volume E d = Ok v)
  (Hresp : Marshal_GetResponse E (mkGetResponse (Name v) (Path (Export v)))
           = Ok b) :
  getVolume E r w = (w, Some (written b)).
Proof.
  destruct Hr as (Hform & Hv & Hname).
  unfold getVolume. rewrite Hform, Hv, (eqb_name_false _ Hname).
  unfold db_View, getVolume_tx, bind, Get, wrapM, of_result, ret.
  rewrite Hfound, Hdecode, Hresp. now destruct w.
Qed.

Lemma get_found_answers_record_witness :
  getVolume (Demo.env "/data" Demo.never false) (Demo.by_name "data1")
    Demo.with_data1
  = (Demo.with_data1,
     Some (written (Demo.json_response "data1" "/data/nfs/data1"))).
Proof.
  apply (get_found_answers_record (Demo.env "/data" Demo.never false)
           (Demo.by_name "data1") "data1" Demo.with_data1
           (Demo.json_volume Demo.data1) Demo.data1).
  - repeat split; discriminate.
  - reflexivity.
  - reflexivity.
  - reflexivity.
Defined.

(** A get of a record that does not decode answers 500; the message names
    the read and the decoding around the error of the decoder. *)
Theorem get_undecodable_is_internal_error
  (E : Env) (r : Request) (name : string) (w : World) (d : string)
  (e : error)
  (Hr : named_request r name)
  (Hfound : bucket_get (db w) name = Some d)
  (Hdecode : Unmarshal_volume E d = Err e) :
  getVolume E r w
  = (w, Some (http_Error
                ("error reading from database: "
                   ++ "error unmarshaling volume data from database: "
                   ++ Error e)
                StatusInternalServerError)).
Proof.
  destruct Hr as (Hform & Hv & Hname).
  unfold getVolume. rewrite Hform, Hv, (eqb_name_false _ Hname).
  unfold db_View, getVolume_tx, bind, Get, wrapM, of_result, ret.
  rewrite Hfound, Hdecode. now destruct w.
Qed.

Lemma get_undecodable_is_internal_error_witness :
  getVolume (Demo.env "/data" Demo.never false) (Demo.by_name "data1")
    (mkWorld [("data1", "x")] [] [] [])
  = (mkWorld [("data1", "x")] [] [] [],
     Some (http_Error
             ("error reading from database: "
                ++ "error unmarshaling volume data from database: "
                ++ Error Demo.syntax_error)
             StatusInternalServerError)).
Proof.
  apply (get_undecodable_is_internal_error
           (Demo.env "/data" Demo.never false) (Demo.by_name "data1")
           "data1" (mkWorld [("data1", "x")] [] [] []) "x"
           Demo.syntax_error).
  - repeat split; discriminate.
  - reflexivity.
  - reflexivity.
Defined.

(* ================================================================== *)
(** ** create: failures before the export and success *)

(** When the store refuses the write of a create, the answer is 500 with
    the wrapped store error and nothing has happened: no directory is made
    and no command is run. *)
Theorem create_store_failure_changes_nothing
  (E : Env) (r : Request) (name : string) (req : CreateRequest) (w : World)
  (vb : string) (e : error)
  (Hr : create_request r name)
  (Hbody : Decode_CreateRequest E (Body r) = Ok req)
  (Habsent : bucket_get (db w) name = None)
  (Hmarshal : Marshal_volume E (new_volume E name req) = Ok vb)
  (Hput : Put_err E (db w) name vb = Some e) :
  createVolume E r w
  = (w, Some (http_Error
                ("error writing volume to database: " ++ Error e)
                StatusInternalServerError)).
Proof.
  rewrite (createVolume_checked E r name req w Hr Hbody).
  unfold db_Update, createVolume_tx, bind, Get. rewrite Habsent.
  fold (new_volume E name req).
  unfold wrapM at 1, of_result. rewrite Hmarshal.
  unfold wrapM at 1, Put. rewrite Hput. simpl. now destruct w.
Qed.

Lemma create_store_failure_changes_nothing_witness :
  createVolume
    (Demo.env_with "/data" (Some Demo.key_too_large) None None None)
    (Demo.post "data1") Demo.fresh
  = (Demo.fresh,
     Some (http_Error "error writing volume to database: key too large"
             StatusInternalServerError)).
Proof.
  apply (create_store_failure_changes_nothing
           (Demo.env_with "/data" (Some Demo.key_too_large) None None None)
           (Demo.post "data1")
           "data1" (mkCreateRequest Demo.hosts "rw") Demo.fresh
           (Demo.json_volume Demo.data1) Demo.key_too_large).
  - repeat split; discriminate.
  - reflexivity.
  - reflexivity.
  - reflexivity.
  - reflexivity.
Defined.

(** When the directory of a create cannot be made, the answer is 500 with
    the wrapped error, the record write is rolled back and the export
    command is not run. *)
Theorem create_mkdir_failure_rolls_back
  (E : Env) (r : Request) (name : string) (req : CreateRequest) (w : World)
  (vb : string) (e : error)
  (Hr : create_request r name)
  (Hbody : Decode_CreateRequest E (Body r) = Ok req)
  (Habsent : bucket_get (db w) name = None)
  (Hmarshal : Marshal_volume E (new_volume E name req) = Ok vb)
  (Hput : Put_err E (db w) name vb = None)
  (Hmkdir : MkdirAll_err E (dirs w) (nfsPath E name) = Some e) :
  snd (createVolume E r w)
  = Some (http_Error ("error creating volume dir: " ++ Error e)
            StatusInternalServerError)
  /\ db (fst (createVolume E r w)) = db w
  /\ execs (fst (createVolume E r w)) = execs w.
Proof.
  assert (createVolume E r w
          = (w, Some (http_Error ("error creating volume dir: " ++ Error e)
                        StatusInternalServerError))) as run.
  { rewrite (createVolume_checked E r name req w Hr Hbody).
    unfold db_Update, createVolume_tx, bind, Get. rewrite Habsent.
    fold (new_volume E name req).
    unfold wrapM at 1, of_result. rewrite Hmarshal.
    unfold wrapM at 1, Put. rewrite Hput.
    unfold wrapM at 1, MkdirAll. simpl. rewrite Hmkdir. simpl.
    now destruct w. }
  rewrite run. repeat split.
Qed.

Lemma create_mkdir_failure_rolls_back_witness :
  snd (createVolume
         (Demo.env_with "/data" None (Some Demo.permission_denied) None None)
         (Demo.post "data1") Demo.fresh)
  = Some (http_Error "error creating volume dir: permission denied"
            StatusInternalServerError)
  /\ db (fst (createVolume
                (Demo.env_with "/data" None (Some Demo.permission_denied)
                   None None)
                (Demo.post "data1") Demo.fresh)) = []
  /\ execs (fst (createVolume
                   (Demo.env_with "/data" None (Some Demo.permission_denied)
                      None None)
                   (Demo.post "data1") Demo.fresh)) = [].
Proof.
  apply (create_mkdir_failure_rolls_back
           (Demo.env_with "/data" None (Some Demo.permission_denied) None
              None)
           (Demo.post "data1")
           "data1" (mkCreateRequest Demo.hosts "rw") Demo.fresh
           (Demo.json_volume Demo.data1) Demo.permission_denied).
  - repeat split; discriminate.
  - reflexivity.
  - reflexivity.
  - reflexivity.
  - reflexivity.
  - reflexivity.
Defined.

(** A create whose steps all succeed, the commit included, answers 200
    with the name and the path and has run the export command exactly
    once; a get of the name then answers that same name and path, provided
    the record reads back as it was written. *)
Theorem create_then_get_answers_same_path
  (E : Env) (r g : Request) (name : string) (req : CreateRequest)
  (w : World) (vb out b b' : string)
  (Hr : create_request r name)
  (Hg : named_request g name)
  (Hbody : Decode_CreateRequest E (Body r) = Ok req)
  (Habsent : bucket_get (db w) name = None)
  (Hmarshal : Marshal_volume E (new_volume E name req) = Ok vb)
  (Hput : Put_err E (db w) name vb = None)
  (Hmkdir : MkdirAll_err E (dirs w) (nfsPath E name) = None)
  (Happly : CombinedOutput E (execs w) (exportfsPath E)
              (exportfs_args (new_volume E name req)) = (out, None))
  (Hcommit : Commit_err E (db w) (bucket_put (db w) name vb) = None)
  (Hresp : Marshal_CreateResponse E (mkCreateResponse name (nfsPath E name))
           = Ok b)
  (Hback : Unmarshal_volume E vb = Ok (new_volume E name req))
  (Hget : Marshal_GetResponse E (mkGetResponse name (nfsPath E name))
          = Ok b') :
  createVolume E r w
  = (mkWorld (bucket_put (db w) name vb)
       (mkdir_all (dirs w) (nfsPath E name))
       (execs w ++ [(exportfsPath E, exportfs_args (new_volume E name req))])
       (logs w),
     Some (written b))
  /\ snd (getVolume E g (fst (createVolume E r w))) = Some (written b').
Proof.
  rewrite (create_success_run E r name req w vb out b Hr Hbody Habsent
             Hmarshal Hput Hmkdir Happly Hcommit Hresp).
  split; [reflexivity |]. cbn [fst].
  rewrite (get_found_lookup E g name _ vb (new_volume E name req) b' Hg);
    [reflexivity | apply bucket_get_put | exact Hback | exact Hget].
Qed.

Lemma create_then_get_answers_same_path_witness :
  createVolume (Demo.env "/data" Demo.never false) (Demo.post "data1")
    Demo.fresh
  = (mkWorld [("data1", Demo.json_volume Demo.data1)]
       ["/"; "/data"; "/data/nfs"; "/data/nfs/data1"]
       [("/usr/sbin/exportfs", ["-o"; "rw"; "10.0.0.0/24:/data/nfs/data1"])]
       [],
     Some (written (Demo.json_response "data1" "/data/nfs/data1")))
  /\ snd (getVolume (Demo.env "/data" Demo.never false)
            (Demo.by_name "data1")
            (fst (createVolume (Demo.env "/data" Demo.never false)
                    (Demo.post "data1") Demo.fresh)))
     = Some (written (Demo.json_response "data1" "/data/nfs/data1")).
Proof.
  apply (create_then_get_answers_same_path
           (Demo.env "/data" Demo.never false) (Demo.post "data1")
           (Demo.by_name "data1")
           "data1" (mkCreateRequest Demo.hosts "rw") Demo.fresh
           (Demo.json_volume Demo.data1) ""
           (Demo.json_response "data1" "/data/nfs/data1")
           (Demo.json_response "data1" "/data/nfs/data1")).
  - repeat split; discriminate.
  - repeat split; discriminate.
  - reflexivity.
  - reflexivity.
  - reflexivity.
  - reflexivity.
  - reflexivity.
  - reflexivity.
  - reflexivity.
  - reflexivity.
  - reflexivity.
  - reflexivity.
Defined.

(* ================================================================== *)
(** ** delete: success and failures *)



(** When the directory of a volume cannot be removed (for a reason other
    than its absence), delete answers 500 and the record deletion is rolled
    back, although the export has already been retracted: the record is
    still in the store and the retract command has run. *)
Theorem delete_remove_failure_keeps_record
  (E : Env) (r : Request) (name : string) (w : World) (d : string)
  (v : volume) (out : string) (e : error)
  (Hr : named_request r name)
  (Hfound : bucket_get (db w) name = Some d)
  (Hdecode : Unmarshal_volume E d = Ok v)
  (Hretract : CombinedOutput E (execs w) (exportfsPath E) (unexport_args v)
              = (out, None))
  (Hremove : RemoveAll_err E (dirs w) (Path (Export v)) = Some e)
  (Hkind : IsNotExist e = false) :
  snd (deleteVolume E r w)
  = Some (http_Error ("error removing volume data: " ++ Error e)
            StatusInternalServerError)
  /\ db (fst (deleteVolume E r w)) = db w
  /\ bucket_get (db (fst (deleteVolume E r w))) name = Some d
  /\ execs (fst (deleteVolume E r w))
     = (execs w ++ [(exportfsPath E, unexport_args v)])%list.
Proof.
  destruct (after_Delete_rest E name w) as (Hdirs & Hexecs & Hlogs).
  assert (deleteVolume E r w
          = (mkWorld (db w) (dirs w)
               (execs w ++ [(exportfsPath E, unexport_args v)]) (logs w),
             Some (http_Error ("error removing volume data: " ++ Error e)
                     StatusInternalServerError))) as run.
  { rewrite (deleteVolume_checked E r name w Hr).
    unfold db_Update.
    rewrite (delete_tx_reaches_retract E name w d v Hfound Hdecode),
      Hretract, Hremove, Hkind.
    unfold set_db, add_exec. simpl. now rewrite Hdirs, Hexecs, Hlogs. }
  rewrite run. repeat split. exact Hfound.
Qed.

Lemma delete_remove_failure_keeps_record_witness :
  snd (deleteVolume (Demo.env_with "/data" None None (Some Demo.busy) None)
         (Demo.by_name "data1") Demo.with_data1)
  = Some (http_Error "error removing volume data: device or resource busy"
            StatusInternalServerError)
  /\ bucket_get
       (db (fst (deleteVolume
                   (Demo.env_with "/data" None None (Some Demo.busy) None)
                   (Demo.by_name "data1") Demo.with_data1))) "data1"
     = Some (Demo.json_volume Demo.data1)
  /\ execs (fst (deleteVolume
                   (Demo.env_with "/data" None None (Some Demo.busy) None)
                   (Demo.by_name "data1") Demo.with_data1))
     = [("/usr/sbin/exportfs", ["-u"; "10.0.0.0/24:/data/nfs/data1"])].
Proof.
  pose proof (delete_remove_failure_keeps_record
                (Demo.env_with "/data" None None (Some Demo.busy) None)
                (Demo.by_name "data1")
                "data1" Demo.with_data1 (Demo.json_volume Demo.data1)
                Demo.data1 "" Demo.busy) as H.
  destruct H as (Hresp & _ & Hget & Hexecs).
  - repeat split; discriminate.
  - reflexivity.
  - reflexivity.
  - reflexivity.
  - reflexivity.
  - reflexivity.
  - split; [exact Hresp |]. split; [exact Hget | exact Hexecs].
Defined.

(** A [RemoveAll] error that says the directory does not exist is taken
    for success: the store committing, delete answers 200 and the record
    is removed. *)
Theorem delete_tolerates_missing_directory
  (E : Env) (r : Request) (name : string) (w : World) (d : string)
  (v : volume) (out : string) (e : error)
  (Hr : named_request r name)
  (Hfound : bucket_get (db w) name = Some d)
  (Hdelete : Delete_err E (db w) name = None)
  (Hdecode : Unmarshal_volume E d = Ok v)
  (Hretract : CombinedOutput E (execs w) (exportfsPath E) (unexport_args v)
              = (out, None))
  (Hremove : RemoveAll_err E (dirs w) (Path (Export v)) = Some e)
  (Hkind : IsNotExist e = true)
  (Hcommit : Commit_err E (db w) (bucket_delete (db w) name) = None) :
  snd (deleteVolume E r w) = Some (written "")
  /\ bucket_get (db (fst (deleteVolume E r w))) name = None.
Proof.
  assert (deleteVolume E r w
          = (mkWorld (bucket_delete (db w) name) (dirs w)
               (execs w ++ [(exportfsPath E, unexport_args v)]) (logs w),
             Some (written ""))) as run.
  { rewrite (deleteVolume_checked E r name w Hr).
    unfold db_Update.
    rewrite (delete_tx_reaches_retract E name w d v Hfound Hdecode),
      Hretract, Hremove, Hkind.
    unfold after_Delete. rewrite Hdelete. cbn [negb db set_db add_exec].
    now rewrite Hcommit. }
  rewrite run. split; [reflexivity | apply bucket_get_delete].
Qed.

Lemma delete_tolerates_missing_directory_witness :
  snd (deleteVolume
         (Demo.env_with "/data" None None (Some Demo.no_such_file) None)
         (Demo.by_name "data1") Demo.with_data1)
  = Some (written "")
  /\ bucket_get
       (db (fst (deleteVolume
                   (Demo.env_with "/data" None None (Some Demo.no_such_file)
                      None)
                   (Demo.by_name "data1") Demo.with_data1))) "data1"
     = None.
Proof.
  apply (delete_tolerates_missing_directory
           (Demo.env_with "/data" None None (Some Demo.no_such_file) None)
           (Demo.by_name "data1")
           "data1" Demo.with_data1 (Demo.json_volume Demo.data1) Demo.data1
           "" Demo.no_such_file).
  - repeat split; discriminate.
  - reflexivity.
  - reflexivity.
  - reflexivity.
  - reflexivity.
  - reflexivity.
  - reflexivity.
  - reflexivity.
Defined.

(** A record that does not decode cannot be deleted: delete answers 500
    with the decoding error, runs no command, and the world, the record
    included, is left as it was. *)
Theorem delete_undecodable_changes_nothing
  (E : Env) (r : Request) (name : string) (w : World) (d : string)
  (e : error)
  (Hr : named_request r name)
  (Hfound : bucket_get (db w) name = Some d)
  (Hdecode : Unmarshal_volume E d = Err e) :
  deleteVolume E r w
  = (w, Some (http_Error
                ("error unmarshaling volume from database: " ++ Error e)
                StatusInternalServerError)).
Proof.
  rewrite (deleteVolume_checked E r name w Hr).
  unfold db_Update, deleteVolume_tx, bind, Get. rewrite Hfound.
  unfold catch at 1, Delete.
  destruct (Delete_err E (db w) name) as [e0 |];
    unfold wrapM, of_result; rewrite Hdecode; simpl; now destruct w.
Qed.

Lemma delete_undecodable_changes_nothing_witness :
  deleteVolume (Demo.env "/data" Demo.never false) (Demo.by_name "data1")
    (mkWorld [("data1", "x")] [] [] [])
  = (mkWorld [("data1", "x")] [] [] [],
     Some (http_Error
             ("error unmarshaling volume from database: "
                ++ Error Demo.syntax_error)
             StatusInternalServerError)).
Proof.
  apply (delete_undecodable_changes_nothing
           (Demo.env "/data" Demo.never false) (Demo.by_name "data1")
           "data1" (mkWorld [("data1", "x")] [] [] []) "x"
           Demo.syntax_error).
  - repeat split; discriminate.
  - reflexivity.
  - reflexivity.
Defined.

(* ================================================================== *)
(** ** Reload and the shutdown handler, whatever the store holds *)

Lemma Reload_each_frame (E : Env) (k d : string) (w : World) :
  db (fst (Reload_each E k d w)) = db w
  /\ dirs (fst (Reload_each E k d w)) = dirs w
  /\ at_most_one_more (execs w) (execs (fst (Reload_each E k d w))).
Proof.
  unfold at_most_one_more, Reload_each, log_Error, panic.
  unfold_handlers. split_cases; repeat split; eauto.
Qed.

Lemma ForEach_Reload_frame (E : Env) (b : Bucket) :
  forall w : World,
    db (fst (ForEach (Reload_each E) b w)) = db w
    /\ dirs (fst (ForEach (Reload_each E) b w)) = dirs w
    /\ length (execs (fst (ForEach (Reload_each E) b w)))
       <= length (execs w) + length b.
Proof.
  induction b as [| [k d] rest IH]; intro w; cbn [ForEach].
  - simpl. repeat split. lia.
  - unfold bind.
    destruct (Reload_each_frame E k d w) as (Hdb & Hdirs & Hexecs).
    assert (length (execs (fst (Reload_each E k d w)))
            <= length (execs w) + 1) as Hlen.
    { destruct Hexecs as [-> | [x ->]]; [lia |].
      rewrite length_app. simpl. lia. }
    destruct (Reload_each E k d w) as [w1 [[] | e |]]; cbn [fst] in *.
    + destruct (IH w1) as (H1 & H2 & H3).
      rewrite H1, H2. repeat split; try assumption. simpl. lia.
    + repeat split; try assumption. simpl. lia.
    + repeat split; try assumption. simpl. lia.
Qed.

(** Whatever the store holds, decodable or not, Reload never writes to
    the store or to the filesystem, and it runs at most one command per
    record. *)
Theorem reload_reads_only (E : Env) (w : World) :
  db (fst (Reload E w)) = db w
  /\ dirs (fst (Reload E w)) = dirs w
  /\ length (execs (fst (Reload E w)))
     <= length (execs w) + length (db w).
Proof.
  unfold Reload, db_View.
  destruct (ForEach_Reload_frame E (db w) w) as (_ & Hdirs & Hlen).
  destruct (ForEach (Reload_each E) (db w) w) as [w1 res].
  cbn [fst set_db db dirs execs] in *. auto.
Qed.

(** At a termination signal the process runs the retract-everything
    command once and exits with status 0, whether the command succeeds or
    not, and with the store as it was. *)
Theorem shutdown_handler_exits_zero (E : Env) (w : World) :
  snd (handleShutdown E w) = Exited 0
  /\ db (fst (handleShutdown E w)) = db w
  /\ execs (fst (handleShutdown E w))
     = (execs w ++ [(exportfsPath E, ["-ua"])])%list.
Proof.
  unfold handleShutdown, Shutdown, bind, catch, log_Error. rewrite cmd_run.
  destruct (CombinedOutput E (execs w) (exportfsPath E) ["-ua"])
    as [out [e |]]; repeat split.
Qed.

(* ================================================================== *)
(** ** The arguments of the export command *)

Lemma apply_arguments_length (opts path : string) (hs : list string) :
  length
    (flat_map
       (fun h => ((if opts =? "" then [] else ["-o"; opts])
                    ++ [(h ++ ":" ++ path)%string])%list) hs)
  = (if opts =? "" then 1 else 3) * length hs.
Proof.
  induction hs as [| h hs IH]; cbn [flat_map].
  - simpl. now rewrite Nat.mul_0_r.
  - rewrite !length_app, IH. destruct (opts =? ""); simpl; lia.
Qed.

(** The number of arguments: apply passes three per host when there are
    options and one per host otherwise, retract one per host after [-u].
    So for a volume without hosts apply runs the command with no argument
    at all. *)
Theorem projector_argument_counts (v : volume) :
  length (exportfs_args v)
  = (if Options (Export v) =? "" then 1 else 3) * length (Hosts (Export v))
  /\ length (unexport_args v) = 1 + length (Hosts (Export v)).
Proof.
  rewrite exportfs_args_spec, unexport_args_spec.
  unfold apply_arguments, retract_arguments. split.
  - apply apply_arguments_length.
  - simpl. now rewrite length_map.
Qed.

(* ================================================================== *)
(** ** What the status of a create tells *)

(** create answers 409 only for a name that is in the store; a 200 means
    that the name was absent and that the record is now stored under it. *)
Theorem create_status_tells_presence
  (E : Env) (r : Request) (w : World) :
  (status_of (createVolume E r w) = Some StatusConflict ->
   bucket_get (db w) (query_name r) <> None)
  /\ (status_of (createVolume E r w) = Some StatusOK ->
      bucket_get (db w) (query_name r) = None
      /\ bucket_get (db (fst (createVolume E r w))) (query_name r) <> None).
Proof.
  unfold status_of. split; unfold_handlers; split_cases;
    unfold StatusConflict, StatusOK, StatusBadRequest,
      StatusInternalServerError;
    intro H; try discriminate H; try split; try reflexivity;
    try discriminate.
  all: cbn [db]; now rewrite bucket_get_put.
Qed.

(* ================================================================== *)
(** ** create, then delete *)

(** In a deployment where nothing fails, a create of a new name followed
    by a delete of it answers 200 twice and puts the store back exactly as
    it was; the export command has run twice, to apply and to retract, and
    the directory of the volume is gone. *)
Theorem create_then_delete_restores_store
  (E : Env) (r d : Request) (name : string) (req : CreateRequest)
  (w : World) (vb b : string)
  (Hrel : reliable E)
  (Hr : create_request r name)
  (Hd : named_request d name)
  (Hbody : Decode_CreateRequest E (Body r) = Ok req)
  (Habsent : bucket_get (db w) name = None)
  (Hmarshal : Marshal_volume E (new_volume E name req) = Ok vb)
  (Hresp : Marshal_CreateResponse E (mkCreateResponse name (nfsPath E name))
           = Ok b)
  (Hback : Unmarshal_volume E vb = Ok (new_volume E name req)) :
  snd (createVolume E r w) = Some (written b)
  /\ snd (deleteVolume E d (fst (createVolume E r w))) = Some (written "")
  /\ db (fst (deleteVolume E d (fst (createVolume E r w)))) = db w
  /\ execs (fst (deleteVolume E d (fst (createVolume E r w))))
     = (execs w ++ [(exportfsPath E, exportfs_args (new_volume E name req));
                    (exportfsPath E, unexport_args (new_volume E name req))])%list
  /\ dir_exists (dirs (fst (deleteVolume E d (fst (createVolume E r w)))))
       (nfsPath E name) = false.
Proof.
  destruct Hrel as (Hput & Hdel & Hcommit & Hmk & Hrm & Hcmd).
  pose proof (Hcmd (execs w) (exportfsPath E)
                (exportfs_args (new_volume E name req))) as Happly.
  destruct (CombinedOutput E (execs w) (exportfsPath E)
              (exportfs_args (new_volume E name req))) as [out o] eqn:Hout1.
  cbn [snd] in Happly. subst o.
  rewrite (create_success_run E r name req w vb out b Hr Hbody Habsent
             Hmarshal (Hput _ _ _) (Hmk _ _) Hout1 (Hcommit _ _) Hresp).
  cbn [fst snd].
  set (w1 := mkWorld (bucket_put (db w) name vb)
               (mkdir_all (dirs w) (nfsPath E name))
               (execs w ++
                  [(exportfsPath E, exportfs_args (new_volume E name req))])
               (logs w)).
  pose proof (Hcmd (execs w1) (exportfsPath E)
                (unexport_args (new_volume E name req))) as Hretract.
  destruct (CombinedOutput E (execs w1) (exportfsPath E)
              (unexport_args (new_volume E name req))) as [out2 o] eqn:Hout2.
  cbn [snd] in Hretract. subst o.
  rewrite (delete_success_run E d name w1 vb (new_volume E name req) out2 Hd
             (bucket_get_put _ _ _) (Hdel _ _) Hback Hout2 (Hrm _ _)
             (Hcommit _ _)).
  cbn [fst snd db dirs execs w1 new_volume Export Path].
  repeat split.
  - now apply bucket_delete_put.
  - now rewrite <- app_assoc.
  - apply remove_all_gone; [apply nfsPath_nonempty |].
    rewrite nfsPath_clean. apply is_under_self.
Qed.

Lemma create_then_delete_restores_store_witness :
  snd (createVolume (Demo.env "/data" Demo.never false)
         (Demo.post "data2") Demo.with_data1)
  = Some (written (Demo.json_response "data2" "/data/nfs/data2"))
  /\ snd (deleteVolume (Demo.env "/data" Demo.never false)
            (Demo.by_name "data2")
            (fst (createVolume (Demo.env "/data" Demo.never false)
                    (Demo.post "data2") Demo.with_data1)))
     = Some (written "")
  /\ db (fst (deleteVolume (Demo.env "/data" Demo.never false)
                (Demo.by_name "data2")
                (fst (createVolume (Demo.env "/data" Demo.never false)
                        (Demo.post "data2") Demo.with_data1))))
     = db Demo.with_data1.
Proof.
  pose proof (create_then_delete_restores_store
                (Demo.env "/data" Demo.never false) (Demo.post "data2")
                (Demo.by_name "data2")
                "data2" (mkCreateRequest Demo.hosts "rw") Demo.with_data1
                (Demo.json_volume Demo.data2)
                (Demo.json_response "data2" "/data/nfs/data2")) as H.
  destruct H as (Hc & Hd & Hdb & _).
  - repeat split.
  - repeat split; discriminate.
  - repeat split; discriminate.
  - reflexivity.
  - reflexivity.
  - reflexivity.
  - reflexivity.
  - reflexivity.
  - split; [exact Hc |]. split; [exact Hd | exact Hdb].
Defined.

(* ================================================================== *)
(** ** delete, then delete *)

(** After a delete that succeeded, a second delete of the same name
    answers 200 and does nothing: the export is retracted once, not
    twice. *)
Theorem delete_twice_retracts_once
  (E : Env) (r : Request) (name : string) (w : World) (d : string)
  (v : volume) (out : string)
  (Hr : named_request r name)
  (Hfound : bucket_get (db w) name = Some d)
  (Hdelete : Delete_err E (db w) name = None)
  (Hdecode : Unmarshal_volume E d = Ok v)
  (Hretract : CombinedOutput E (execs w) (exportfsPath E) (unexport_args v)
              = (out, None))
  (Hremove : RemoveAll_err E (dirs w) (Path (Export v)) = None)
  (Hcommit : Commit_err E (db w) (bucket_delete (db w) name) = None)
  (Hcommit2 : Commit_err E (bucket_delete (db w) name)
                (bucket_delete (db w) name) = None) :
  deleteVolume E r (fst (deleteVolume E r w))
  = (fst (deleteVolume E r w), Some (written ""))
  /\ execs (fst (deleteVolume E r (fst (deleteVolume E r w))))
     = (execs w ++ [(exportfsPath E, unexport_args v)])%list.
Proof.
  rewrite (delete_success_run E r name w d v out Hr Hfound Hdelete Hdecode
             Hretract Hremove Hcommit).
  cbn [fst].
  rewrite (delete_absent_run E r name _ Hr);
    [split; reflexivity | apply bucket_get_delete | exact Hcommit2].
Qed.

Lemma delete_twice_retracts_once_witness :
  deleteVolume (Demo.env "/data" Demo.never false) (Demo.by_name "data1")
    (fst (deleteVolume (Demo.env "/data" Demo.never false)
            (Demo.by_name "data1") Demo.with_data1))
  = (fst (deleteVolume (Demo.env "/data" Demo.never false)
            (Demo.by_name "data1") Demo.with_data1),
     Some (written ""))
  /\ execs (fst (deleteVolume (Demo.env "/data" Demo.never false)
                   (Demo.by_name "data1")
                   (fst (deleteVolume (Demo.env "/data" Demo.never false)
                           (Demo.by_name "data1") Demo.with_data1))))
     = (execs Demo.with_data1
          ++ [("/usr/sbin/exportfs", unexport_args Demo.data1)])%list.
Proof.
  apply (delete_twice_retracts_once
           (Demo.env "/data" Demo.never false) (Demo.by_name "data1")
           "data1" Demo.with_data1 (Demo.json_volume Demo.data1) Demo.data1
           "").
  - repeat split; discriminate.
  - reflexivity.
  - reflexivity.
  - reflexivity.
  - reflexivity.
  - reflexivity.
  - reflexivity.
  - reflexivity.
Defined.

(* ================================================================== *)
(** ** A commit that fails *)

(** When the store cannot commit the transaction of a create whose steps
    all succeeded, the answer is 500 with the commit error and the record
    is not stored, although the directory is made and the export
    applied. *)
Lemma create_commit_failure_is_internal_error
  (E : Env) (r : Request) (name : string) (req : CreateRequest) (w : World)
  (vb out : string) (e : error)
  (Hr : create_request r name)
  (Hbody : Decode_CreateRequest E (Body r) = Ok req)
  (Habsent : bucket_get (db w) name = None)
  (Hmarshal : Marshal_volume E (new_volume E name req) = Ok vb)
  (Hput : Put_err E (db w) name vb = None)
  (Hmkdir : MkdirAll_err E (dirs w) (nfsPath E name) = None)
  (Happly : CombinedOutput E (execs w) (exportfsPath E)
              (exportfs_args (new_volume E name req)) = (out, None))
  (Hcommit : Commit_err E (db w) (bucket_put (db w) name vb) = Some e) :
  createVolume E r w
  = (mkWorld (db w) (mkdir_all (dirs w) (nfsPath E name))
       (execs w ++ [(exportfsPath E, exportfs_args (new_volume E name req))])
       (logs w),
     Some (http_Error (Error e) StatusInternalServerError)).
Proof.
  rewrite (createVolume_checked E r name req w Hr Hbody).
  unfold db_Update.
  rewrite (create_tx_reaches_apply E name req w vb Habsent Hmarshal Hput
             Hmkdir), Happly.
  cbn [db]. now rewrite Hcommit.
Qed.

Example create_commit_failure_case :
  createVolume (Demo.env_with "/data" None None None (Some Demo.disk_full))
    (Demo.post "data1") Demo.fresh
  = (mkWorld [] ["/"; "/data"; "/data/nfs"; "/data/nfs/data1"]
       [("/usr/sbin/exportfs", ["-o"; "rw"; "10.0.0.0/24:/data/nfs/data1"])]
       [],
     Some (http_Error "no space left on device" StatusInternalServerError)).
Proof. reflexivity. Qed.

(** Whether the store commits or not, a create of an existing name and a
    delete of an absent name leave the whole world as it was: no record is
    written, no directory made or removed, no command run. *)
Lemma existing_create_and_absent_delete_change_nothing
  (E : Env) (r d : Request) (name : string) (req : CreateRequest)
  (w : World) (data : string)
  (Hr : create_request r name)
  (Hbody : Decode_CreateRequest E (Body r) = Ok req)
  (Hd : named_request d name) :
  (bucket_get (db w) name = Some data -> fst (createVolume E r w) = w)
  /\ (bucket_get (db w) name = None -> fst (deleteVolume E d w) = w).
Proof.
  split; intro Hget.
  - rewrite (createVolume_checked E r name req w Hr Hbody).
    unfold db_Update, createVolume_tx, bind, Get. rewrite Hget. unfold ret.
    destruct (Commit_err E (db w) (db w)); cbn [fst]; now destruct w.
  - rewrite (deleteVolume_checked E d name w Hd).
    unfold db_Update, deleteVolume_tx, bind, Get. rewrite Hget. unfold ret.
    destruct (Commit_err E (db w) (db w)); cbn [fst]; now destruct w.
Qed.
